(** * Video summarizer pipeline (app.py): shallow embedding and properties

    The Python module app.py chains acquisition, audio extraction,
    transcription, summarization, translation and speech synthesis, and
    removes its temporary files in a [finally] block.  This file embeds the
    functions of app.py as computations of a small state-and-exception
    monad over a file system and a trace of external calls, and proves the
    properties of the pipeline stated below. *)

From Stdlib Require Import ZArith Ascii DecimalString.
From stdpp Require Import base tactics option list strings gmap.

Local Open Scope Z_scope.

(** ** Python strings *)

Module PyStr.

(** [s.endswith(suffix)]: [s] is [suffix], or the tail of [s] ends
    with it. *)
Fixpoint endswith (s suffix : string) : bool :=
  if String.eqb s suffix then true
  else match s with
       | EmptyString => false
       | String _ s' => endswith s' suffix
       end.

(** The scan of [s.replace(old, new)] for a non-empty [old]: left to
    right, an occurrence of [old] at the cursor is replaced by [new] and
    the cursor jumps behind it ([skip] counts the characters of the
    occurrence still to be passed over); otherwise the character at the
    cursor is copied. *)
Fixpoint replace_scan (old new : string) (skip : nat) (s : string) : string :=
  match s with
  | EmptyString => EmptyString
  | String c s' =>
      match skip with
      | S k => replace_scan old new k s'
      | O =>
          if String.prefix old s
          then new +:+ replace_scan old new (Nat.pred (String.length old)) s'
          else String c (replace_scan old new O s')
      end
  end.

(** With an empty [old], Python inserts [new] before every character and
    at the end. *)
Fixpoint replace_empty (new s : string) : string :=
  match s with
  | EmptyString => new
  | String c s' => new +:+ String c (replace_empty new s')
  end.

(** [s.replace(old, new)] *)
Definition replace (s old new : string) : string :=
  match old with
  | EmptyString => replace_empty new s
  | String _ _ => replace_scan old new O s
  end.

(** [bool(s)] for a string: non-empty. *)
Definition truthy (s : string) : bool :=
  match s with EmptyString => false | String _ _ => true end.

(** [str(n)] for an int. *)
Definition of_int (n : Z) : string := NilZero.string_of_int (Z.to_int n).

End PyStr.

(** ** Python exceptions and values *)

(** The exception classes the program names or its calls raise.  All of
    them derive from [Exception]; interpreter signals that derive from
    BaseException only are not failures of a call and are not modelled. *)
Inductive exc_class :=
| Exception | OSError | FileNotFoundError | PermissionError
| IndexError | AttributeError | TypeError | ValueError.

Global Instance exc_class_eq_dec : EqDecision exc_class.
Proof. solve_decision. Defined.

(** The direct base class, as in Python's built-in hierarchy. *)
Definition exc_base (c : exc_class) : option exc_class :=
  match c with
  | Exception => None
  | OSError => Some Exception
  | FileNotFoundError => Some OSError
  | PermissionError => Some OSError
  | IndexError | AttributeError | TypeError | ValueError => Some Exception
  end.

(** [issubclass(c, d)]: [d] is [c] or one of its (at most two) bases. *)
Definition issubclass (c d : exc_class) : bool :=
  bool_decide (c = d) ||
  match exc_base c with
  | None => false
  | Some b =>
      bool_decide (b = d) ||
      match exc_base b with
      | None => false
      | Some b' => bool_decide (b' = d)
      end
  end.

(** An exception instance: its class and [str(e)]. *)
Record exn := Exn { exn_class : exc_class; exn_msg : string }.

Global Instance exn_eq_dec : EqDecision exn.
Proof. solve_decision. Defined.

(** An instance of a library class, as far as the program looks at it:
    the class name and what [str()] gives for it. *)
Record pyobj := PyObj { obj_type : string; obj_str : string }.

Global Instance pyobj_eq_dec : EqDecision pyobj.
Proof. solve_decision. Defined.

Inductive value :=
| VNone
| VBool (b : bool)
| VInt (n : Z)
| VStr (s : string)
| VObj (o : pyobj).

Global Instance value_eq_dec : EqDecision value.
Proof. solve_decision. Defined.

(** [str(v)] *)
Definition py_str (v : value) : string :=
  match v with
  | VNone => "None"
  | VBool true => "True"
  | VBool false => "False"
  | VInt n => PyStr.of_int n
  | VStr s => s
  | VObj o => obj_str o
  end.

(** [type(v).__name__] *)
Definition py_type_name (v : value) : string :=
  match v with
  | VNone => "NoneType"
  | VBool _ => "bool"
  | VInt _ => "int"
  | VStr _ => "str"
  | VObj o => obj_type o
  end.

(** [isinstance(v, str)] *)
Definition isinstance_str (v : value) : bool :=
  match v with VStr _ => true | _ => false end.

(** ** The world of a run *)

(** What the program does to the outside, in order: what it shows through
    streamlit, and the calls it makes to the libraries and services. *)
Inductive event :=
| St_title (text : string)
| St_slider (label : string) (min_value max_value value step : Z)
| St_file_uploader (label : string) (types : list string)
| St_text_input (label : string)
| St_selectbox (label : string) (options : list string)
| St_write (v : value)
| St_video (path : string)
| St_audio (path : string) (format : string)
| File_open (path : string) (mode : string)
| File_write (path : string)
| Ydl_open (opts : gmap string value)
| Ydl_extract_info (url : string) (download : bool)
| Ydl_prepare_filename
| Clip_open (path : string)
| Clip_write_audiofile (path : string)
| Clip_close
| Audio_close
| Groq_transcribe (path : string)
| Genai_generate (model : string) (content : string)
| Translate (text : value) (target : string)
| Gtts_new (text : value) (lang : string)
| Gtts_save (path : string)
| Os_remove (path : string).

Global Instance event_eq_dec : EqDecision event.
Proof. solve_decision. Defined.

(** The state a run threads: the files on disk, the events so far, and
    the local variable [audio_path] of [main], which the [try] block
    assigns and the [finally] block reads. *)
Record state := State {
  fs : gset string;
  trace : list event;
  audio_path_var : option string
}.

Inductive result (A : Type) :=
| Returned (a : A)
| Raised (e : exn).
Global Arguments Returned {A} a.
Global Arguments Raised {A} e.

(** A Python computation: from a state to a returned value or a raised
    exception, and the state it leaves. *)
Definition Py (A : Type) : Type := state → result A * state.

Global Instance Py_ret : MRet Py := λ A a w, (Returned a, w).

Global Instance Py_bind : MBind Py := λ A B f m w,
  match m w with
  | (Returned a, w') => f a w'
  | (Raised e, w') => (Raised e, w')
  end.

(** [raise e] *)
Definition raise {A} (e : exn) : Py A := λ w, (Raised e, w).

(** [try: body  except cls as e: handler(e)] *)
Definition try_except {A} (body : Py A) (cls : exc_class) (handler : exn → Py A) : Py A :=
  λ w,
    match body w with
    | (Returned a, w') => (Returned a, w')
    | (Raised e, w') =>
        if issubclass (exn_class e) cls then handler e w' else (Raised e, w')
    end.

(** [try: body  finally: final]: [final] runs on every way out of [body];
    an exception it raises replaces the outcome of [body]. *)
Definition try_finally {A} (body : Py A) (final : Py unit) : Py A :=
  λ w,
    match body w with
    | (r, w') =>
        match final w' with
        | (Returned _, w'') => (r, w'')
        | (Raised e, w'') => (Raised e, w'')
        end
    end.

Definition emit (ev : event) : Py unit :=
  λ w, (Returned (), State (fs w) (trace w ++ [ev]) (audio_path_var w)).

(** Finish with a given outcome. *)
Definition finish {A} (r : result A) : Py A := λ w, (r, w).

(** A call to the outside whose outcome the environment decides. *)
Definition call {A} (ev : event) (r : result A) : Py A :=
  emit ev ;; finish r.

Definition outcome_of (err : option exn) : result unit :=
  match err with
  | Some e => Raised e
  | None => Returned ()
  end.

Definition create_file (path : string) : Py unit :=
  λ w, (Returned (), State ({[path]} ∪ fs w) (trace w) (audio_path_var w)).

Definition create_files (paths : gset string) : Py unit :=
  λ w, (Returned (), State (paths ∪ fs w) (trace w) (audio_path_var w)).

Definition delete_file (path : string) : Py unit :=
  λ w, (Returned (), State (fs w ∖ {[path]}) (trace w) (audio_path_var w)).

Definition set_audio_path (v : option string) : Py unit :=
  λ w, (Returned (), State (fs w) (trace w) v).

Definition get_audio_path : Py (option string) :=
  λ w, (Returned (audio_path_var w), w).

(** [os.path.exists(path)] *)
Definition os_path_exists (path : string) : Py bool :=
  λ w, (Returned (bool_decide (path ∈ fs w)), w).

(** [st.write(text)] *)
Definition st_write (text : string) : Py unit := emit (St_write (VStr text)).

(** The steps of lines 129-131 that put the uploaded bytes into a
    temporary file: making the file, opening it for writing, writing. *)
Inductive upload_step := Upload_tempfile | Upload_open | Upload_write.

Global Instance upload_step_eq_dec : EqDecision upload_step.
Proof. solve_decision. Defined.

(** ** The environment of a run

    What the user enters and how every library or service call turns out.
    The program decides none of it; the theorems quantify over all of it. *)
Record Env := {
  (** names picked by [tempfile], without the suffix the program asks for *)
  tmp_download_stem : string;
  tmp_upload_stem : string;
  tmp_speech_stem : string;
  (** streamlit widgets *)
  ui_slider : Z → Z → Z → Z → Z;
  ui_uploaded_file : option string;
  ui_video_url : string;
  ui_selectbox : list string → string;
  (** how [st.video], which reads the file, fails on a path *)
  st_video_error : string → option exn;
  (** the file system: how [open] fails on an existing file, how
      [os.remove] fails on one, the message for a missing one; the first
      step of storing the uploaded bytes that fails, with its exception;
      and how making the temporary file for the speech fails *)
  open_error : string → option exn;
  remove_error : string → option exn;
  enoent_msg : string → string;
  upload_failure : option (upload_step * exn);
  tmp_speech_error : option exn;
  (** yt-dlp *)
  ydl_extract_info : gmap string value → string → result (gmap string string);
  ydl_downloaded : string → gset string;
  ydl_prepare_filename : gmap string string → result string;
  (** moviepy: how opening the clip fails, whether the clip has an audio
      track, how writing the audio of a clip to a path fails, and whether
      the call, returning or raising, leaves a file at that path *)
  clip_open_error : string → option exn;
  clip_has_audio : string → bool;
  clip_write_error : string → string → option exn;
  clip_write_leaves : string → string → bool;
  (** [prompt + o] for an object [o]: the string it gives where [o] takes
      part in the concatenation (through its [__radd__]), the exception
      otherwise *)
  str_radd : string → pyobj → result string;
  (** Groq, Gemini, translatepy, gTTS *)
  groq_transcribe : string → result string;
  genai_generate : string → string → result string;
  translator_translate : value → string → result value;
  gtts_new_error : value → string → option exn;
  gtts_save_error : value → string → string → option exn
}.

(** How the step [step] of storing the uploaded bytes fails: the steps
    before the failing one succeed, the ones after it are not reached. *)
Definition upload_error (E : Env) (step : upload_step) : option exn :=
  match upload_failure E with
  | Some (failing, e) => if bool_decide (failing = step) then Some e else None
  | None => None
  end.

(** How writing the uploaded bytes fails. *)
Definition upload_write_error (E : Env) : option exn := upload_error E Upload_write.

(** The newline inside the prompt template, and the double quote inside
    the message of a TypeError. *)
Definition nl : string := String (ascii_of_nat 10) EmptyString.
Definition dquote : string := String (ascii_of_nat 34) EmptyString.

(** Lines 81-83 *)
Definition create_prompt (length : Z) : string :=
  "You are a YouTube video summarizer. You will be taking the transcript text"
  +:+ nl +:+
  "and summarizing the entire video and providing the important summary within "
  +:+ PyStr.of_int length +:+
  " words. Please provide the summary of the text given here: ".

(** Lines 46-53: the audio file path for a video path. *)
Definition temp_audio_path (video_path : string) : string :=
  if PyStr.endswith video_path ".webm" then PyStr.replace video_path ".webm" ".mp3"
  else if PyStr.endswith video_path ".mp4" then PyStr.replace video_path ".mp4" ".mp3"
  else video_path +:+ ".mp3".

(** Lines 160-165 *)
Definition language_options : list (string * string) :=
  [ ("en", "English"); ("hi", "Hindi"); ("bn", "Bengali"); ("mr", "Marathi");
    ("ta", "Tamil"); ("kn", "Kannada"); ("ur", "Urdu"); ("gu", "Gujarati");
    ("ml", "Malayalam"); ("or", "Odia"); ("pa", "Punjabi"); ("as", "Assamese");
    ("es", "Spanish"); ("fr", "French"); ("de", "German"); ("it", "Italian");
    ("pt", "Portuguese"); ("zh-cn", "Chinese (Simplified)");
    ("ja", "Japanese"); ("ko", "Korean"); ("ar", "Arabic") ].

(** [xs[0]] *)
Definition first_item {A} (xs : list A) : Py A :=
  match xs with
  | x :: _ => mret x
  | [] => raise (Exn IndexError "list index out of range")
  end.

Section Program.
Context (E : Env).

(** [open(path, mode)] of an existing or missing file, for reading. *)
Definition open_read (path : string) : Py unit :=
  emit (File_open path "rb") ;;
  ex ← os_path_exists path;
  if (ex : bool) then finish (outcome_of (open_error E path))
  else raise (Exn FileNotFoundError (enoent_msg E path)).

(** [os.remove(path)] *)
Definition os_remove (path : string) : Py unit :=
  emit (Os_remove path) ;;
  ex ← os_path_exists path;
  if (ex : bool) then
    match remove_error E path with
    | Some e => raise e
    | None => delete_file path
    end
  else raise (Exn FileNotFoundError (enoent_msg E path)).

(** [tempfile.NamedTemporaryFile(suffix=suffix, delete=False).name]: the
    file is made and its name returned, or the call raises and makes
    none. *)
Definition named_temporary_file (err : option exn) (stem suffix : string) : Py string :=
  match err with
  | Some e => raise e
  | None => create_file (stem +:+ suffix) ;; mret (stem +:+ suffix)
  end.

(** [st.video(path)] *)
Definition st_video (path : string) : Py unit :=
  call (St_video path) (outcome_of (st_video_error E path)).

(** [prompt + text]: string concatenation for a string; for an object
    what its part in the concatenation gives; a TypeError for None, a
    bool and an int. *)
Definition str_add (prompt : string) (text : value) : Py string :=
  match text with
  | VStr t => mret (prompt +:+ t)
  | VObj o => finish (str_radd E prompt o)
  | _ =>
      raise (Exn TypeError
               ("can only concatenate str (not " +:+ dquote +:+ py_type_name text
                +:+ dquote +:+ ") to str"))
  end.

(** Lines 26-31 *)
Definition ydl_opts : gmap string value :=
  <["format" := VStr "bestvideo+bestaudio/best"]>
  (<["outtmpl" := VStr (tmp_download_stem E +:+ ".webm")]>
  (<["merge_output_format" := VStr "webm"]>
  (<["noplaylist" := VBool true]> ∅))).

(** Lines 25-37.  What [extract_info] has put on disk is there whether
    it returns or raises. *)
Definition download_video (url : string) : Py string :=
  emit (Ydl_open ydl_opts) ;;
  emit (Ydl_extract_info url true) ;;
  create_files (ydl_downloaded E url) ;;
  info_dict ← finish (ydl_extract_info E ydl_opts url);
  prepared ← call Ydl_prepare_filename (ydl_prepare_filename E info_dict);
  mret (default prepared (info_dict !! "filepath")).

(** [audio.write_audiofile(path)], where [audio] is [video.audio] of the
    clip opened from [video_path] and may be None.  Whether a file is at
    [path] afterwards is the encoder's doing, on return and on an
    exception alike. *)
Definition write_audiofile (video_path path : string) : Py unit :=
  if clip_has_audio E video_path then
    emit (Clip_write_audiofile path) ;;
    (if clip_write_leaves E video_path path then create_file path else mret ()) ;;
    finish (outcome_of (clip_write_error E video_path path))
  else raise (Exn AttributeError "'NoneType' object has no attribute 'write_audiofile'").

(** Lines 39-62 *)
Definition extract_audio (video_path : string) : Py string :=
  ex ← os_path_exists video_path;
  if negb (ex : bool) then
    raise (Exn FileNotFoundError ("Video file not found: " +:+ video_path))
  else
    call (Clip_open video_path) (outcome_of (clip_open_error E video_path)) ;;
    write_audiofile video_path (temp_audio_path video_path) ;;
    emit Clip_close ;;
    emit Audio_close ;;
    mret (temp_audio_path video_path).

(** Lines 67-76: the guarded region of [transcribe_audio]. *)
Definition transcription_request (audio_path : string) : Py value :=
  open_read audio_path ;;
  text ← call (Groq_transcribe audio_path) (groq_transcribe E audio_path);
  mret (VStr text).

(** Lines 65-78 *)
Definition transcribe_audio (audio_path : string) : Py value :=
  try_except (transcription_request audio_path) Exception
    (λ e, mret (VStr ("An error occurred during transcription: " +:+ exn_msg e))).

(** Lines 85-91 *)
Definition summarize_text (text : value) (prompt : string) : Py value :=
  try_except
    (content ← str_add prompt text;
     response ← call (Genai_generate "gemini-pro" content)
                     (genai_generate E "gemini-pro" content);
     mret (VStr response))
    Exception
    (λ e, mret (VStr ("An error occurred during summarization: " +:+ exn_msg e))).

(** Lines 94-99 *)
Definition translate_text (text : value) (target_language : string) : Py value :=
  try_except
    (translated ← call (Translate text target_language)
                       (translator_translate E text target_language);
     mret (VStr (py_str translated)))
    Exception
    (λ e, mret (VStr ("An error occurred during translation: " +:+ exn_msg e))).

(** Lines 102-109 *)
Definition text_to_speech (text : value) (lang : string) : Py value :=
  try_except
    (call (Gtts_new text lang) (outcome_of (gtts_new_error E text lang)) ;;
     audio_path ← named_temporary_file (tmp_speech_error E) (tmp_speech_stem E) ".mp3";
     call (Gtts_save audio_path) (outcome_of (gtts_save_error E text lang audio_path)) ;;
     mret (VStr audio_path))
    Exception
    (λ e, mret (VStr ("An error occurred during text-to-speech: " +:+ exn_msg e))).

(** Lines 127-143 of [main]: the video path, or None.  In the URL branch
    one handler serves the whole [try]; it is written twice, for an
    exception before and after [video_path] is assigned. *)
Definition main_acquire (uploaded_file : option string) (video_url : string)
  : Py (option string) :=
  match uploaded_file with
  | Some _ =>
      video_path ← named_temporary_file (upload_error E Upload_tempfile)
                      (tmp_upload_stem E) ".mp4";
      call (File_open video_path "wb") (outcome_of (upload_error E Upload_open)) ;;
      call (File_write video_path) (outcome_of (upload_write_error E)) ;;
      st_video video_path ;;
      st_write "Processing your video..." ;;
      mret (Some video_path)
  | None =>
      if PyStr.truthy video_url then
        st_write "Downloading video..." ;;
        try_except
          (video_path ← download_video video_url;
           (* [video_path] is assigned from here on: an exception of the
              lines that follow is handled with the path kept *)
           try_except
             (st_video video_path ;;
              st_write "Video downloaded successfully." ;;
              mret (Some video_path))
             Exception
             (λ e, st_write ("An error occurred during video download: " +:+ exn_msg e) ;;
                   mret (Some video_path)))
          Exception
          (λ e, st_write ("An error occurred during video download: " +:+ exn_msg e) ;;
                mret None)
      else mret None
  end.

(** Lines 150-179 of [main]: the stages after audio extraction. *)
Definition main_stages (audio_path : string) (summary_length : Z) : Py unit :=
  transcript ← transcribe_audio audio_path;
  st_write "Summarizing text..." ;;
  summary ← summarize_text transcript (create_prompt summary_length);
  st_write "Summary:" ;;
  emit (St_write summary) ;;
  emit (St_selectbox "Select language to translate the summary" language_options.*2) ;;
  let target_language := ui_selectbox E language_options.*2 in
  target_language_code ←
    first_item (filter (λ kv, kv.2 = target_language) language_options).*1;
  translated_summary ← translate_text summary target_language_code;
  st_write ("Translated Summary (" +:+ target_language +:+ "):") ;;
  emit (St_write translated_summary) ;;
  st_write "Generating audio from summary..." ;;
  audio_summary_path ← text_to_speech translated_summary target_language_code;
  match audio_summary_path with
  | VStr path =>
      ex ← os_path_exists path;
      if (ex : bool) then emit (St_audio path "audio/mp3")
      else st_write ("Failed to generate audio or invalid path: " +:+ path)
  | other =>
      st_write ("Failed to generate audio or invalid path: " +:+ py_str other)
  end.

(** Lines 148-182 of [main]: the body of the [try]. *)
Definition main_process (video_path : string) (summary_length : Z) : Py unit :=
  audio_path ← extract_audio video_path;
  set_audio_path (Some audio_path) ;;
  if PyStr.truthy (audio_path : string) then main_stages audio_path summary_length
  else st_write "Failed to extract audio from the video.".

(** Lines 188-198 of [main]: the body of the [finally]. *)
Definition main_cleanup (video_path : string) : Py unit :=
  (ex ← os_path_exists video_path;
   if PyStr.truthy video_path && (ex : bool) then
     try_except (os_remove video_path) PermissionError
       (λ e, st_write ("Failed to delete video file: " +:+ exn_msg e))
   else mret ()) ;;
  audio_path ← get_audio_path;
  match audio_path with
  | Some path =>
      ex ← os_path_exists path;
      if PyStr.truthy path && (ex : bool) then
        try_except (os_remove path) PermissionError
          (λ e, st_write ("Failed to delete audio file: " +:+ exn_msg e))
      else mret ()
  | None => mret ()
  end.

(** Lines 146-198 of [main]: the [try] statement. *)
Definition main_guarded (video_path : string) (summary_length : Z) : Py unit :=
  try_finally
    (try_except (main_process video_path summary_length) Exception
       (λ e, st_write ("An error occurred during processing: " +:+ exn_msg e)))
    (main_cleanup video_path).

(** Lines 111-198 *)
Definition main : Py unit :=
  emit (St_title "Video Summarizer and Translator") ;;
  emit (St_slider "Select length of the summary (in words):" 50 500 250 10) ;;
  let summary_length := ui_slider E 50 500 250 10 in
  emit (St_file_uploader "Upload a video file" ["mp4"; "mov"; "avi"]) ;;
  emit (St_text_input "Or enter a video URL") ;;
  set_audio_path None ;;
  video_path ← main_acquire (ui_uploaded_file E) (ui_video_url E);
  match video_path with
  | Some path =>
      if PyStr.truthy path then main_guarded path summary_length else mret ()
  | None => mret ()
  end.

End Program.

(** ** Sample environments and states *)

Module Sample.

(** Everything works; the user uploads a file and keeps the defaults. *)
Definition env : Env := {|
  tmp_download_stem := "/tmp/tmpq7dl";
  tmp_upload_stem := "/tmp/tmpq7up";
  tmp_speech_stem := "/tmp/tmpq7sp";
  ui_slider := λ _ _ value _, value;
  ui_uploaded_file := Some "bytes";
  ui_video_url := "";
  ui_selectbox := λ options, default "" (head options);
  st_video_error := λ _, None;
  open_error := λ _, None;
  remove_error := λ _, None;
  enoent_msg := λ path, "[Errno 2] No such file or directory: '" +:+ path +:+ "'";
  upload_failure := None;
  tmp_speech_error := None;
  ydl_extract_info := λ _ _, Returned ∅;
  ydl_downloaded := λ _, {["/tmp/tmpq7dl.webm"]};
  ydl_prepare_filename := λ _, Returned "/tmp/tmpq7dl.webm";
  clip_open_error := λ _, None;
  clip_has_audio := λ _, true;
  clip_write_error := λ _ _, None;
  clip_write_leaves := λ _ _, true;
  str_radd := λ _ o,
    Raised (Exn TypeError
              ("can only concatenate str (not " +:+ dquote +:+ obj_type o
               +:+ dquote +:+ ") to str"));
  groq_transcribe := λ _, Returned "hello world";
  genai_generate := λ _ _, Returned "a summary";
  translator_translate := λ text _, Returned (VObj (PyObj "TranslationResult" "saaraansh"));
  gtts_new_error := λ _ _, None;
  gtts_save_error := λ _ _ _, None
|}.

(** As [env], with a transcription service that fails. *)
Definition env_transcription_down : Env := {|
  tmp_download_stem := tmp_download_stem env;
  tmp_upload_stem := tmp_upload_stem env;
  tmp_speech_stem := tmp_speech_stem env;
  ui_slider := ui_slider env;
  ui_uploaded_file := ui_uploaded_file env;
  ui_video_url := ui_video_url env;
  ui_selectbox := ui_selectbox env;
  st_video_error := st_video_error env;
  open_error := open_error env;
  remove_error := remove_error env;
  enoent_msg := enoent_msg env;
  upload_failure := upload_failure env;
  tmp_speech_error := tmp_speech_error env;
  ydl_extract_info := ydl_extract_info env;
  ydl_downloaded := ydl_downloaded env;
  ydl_prepare_filename := ydl_prepare_filename env;
  clip_open_error := clip_open_error env;
  clip_has_audio := clip_has_audio env;
  clip_write_error := clip_write_error env;
  clip_write_leaves := clip_write_leaves env;
  str_radd := str_radd env;
  groq_transcribe := λ _, Raised (Exn Exception "Connection error.");
  genai_generate := genai_generate env;
  translator_translate := translator_translate env;
  gtts_new_error := gtts_new_error env;
  gtts_save_error := gtts_save_error env
|}.

(** As [env], with an [os.remove] that fails with the given exception on
    the given path. *)
Definition env_remove_fails (path : string) (e : exn) : Env := {|
  tmp_download_stem := tmp_download_stem env;
  tmp_upload_stem := tmp_upload_stem env;
  tmp_speech_stem := tmp_speech_stem env;
  ui_slider := ui_slider env;
  ui_uploaded_file := ui_uploaded_file env;
  ui_video_url := ui_video_url env;
  ui_selectbox := ui_selectbox env;
  st_video_error := st_video_error env;
  open_error := open_error env;
  remove_error := λ p, if bool_decide (p = path) then Some e else None;
  enoent_msg := enoent_msg env;
  upload_failure := upload_failure env;
  tmp_speech_error := tmp_speech_error env;
  ydl_extract_info := ydl_extract_info env;
  ydl_downloaded := ydl_downloaded env;
  ydl_prepare_filename := ydl_prepare_filename env;
  clip_open_error := clip_open_error env;
  clip_has_audio := clip_has_audio env;
  clip_write_error := clip_write_error env;
  clip_write_leaves := clip_write_leaves env;
  str_radd := str_radd env;
  groq_transcribe := groq_transcribe env;
  genai_generate := genai_generate env;
  translator_translate := translator_translate env;
  gtts_new_error := gtts_new_error env;
  gtts_save_error := gtts_save_error env
|}.

(** A disk that holds the given files, before anything else happened. *)
Definition disk (files : list string) : state :=
  State (list_to_set files) [] None.

End Sample.

(** ** What the cleanup is to achieve *)

(** A deletion of [path] was tried and raised. *)
Definition deletion_failed (E : Env) (path : string) (w : state) : Prop :=
  ∃ e, remove_error E path = Some e ∧ Os_remove path ∈ trace w.

(** The failed deletion of [path] was shown to the user, under [label]. *)
Definition deletion_reported (E : Env) (path label : string) (w : state) : Prop :=
  ∃ e, remove_error E path = Some e ∧ St_write (VStr (label +:+ exn_msg e)) ∈ trace w.

(** In the state [w] a run of [main] leaves, neither the video file nor
    the audio file that [audio_path] names exists, unless its own deletion
    failed. *)
Definition artifacts_deleted (E : Env) (video_path : string) (w : state) : Prop :=
  (video_path ∈ fs w → deletion_failed E video_path w) ∧
  (∀ audio_path,
     audio_path_var w = Some audio_path → audio_path ∈ fs w →
     deletion_failed E audio_path w).

(** The [Genai_generate] requests carry the prompt for [summary_length]
    in front of some text. *)
Definition prompt_for (summary_length : Z) (ev : event) : Prop :=
  ∀ model content,
    ev = Genai_generate model content →
    ∃ text, content = create_prompt summary_length +:+ text.

(** The shape of the two deletions in the [finally] block: lines 188-192
    with the video path, lines 194-198 with the audio path. *)
Definition guarded_remove (E : Env) (path label : string) : Py unit :=
  ex ← os_path_exists path;
  if PyStr.truthy path && (ex : bool) then
    try_except (os_remove E path) PermissionError
      (λ e, st_write (label +:+ exn_msg e))
  else mret ().


(** ** What a computation may do to the state

    [moves R m]: whatever [m] returns or raises, the state it leaves is
    related by [R] to the state it started from.  For a preorder [R] this
    is closed under sequencing, [try]-[except] and [try]-[finally]. *)

Definition moves {A} (R : relation state) (m : Py A) : Prop :=
  ∀ w, R w (m w).2.

(** The trace grew by events that all satisfy [P]. *)
Definition extends (P : event → Prop) (w w' : state) : Prop :=
  ∃ evs, trace w' = trace w ++ evs ∧ Forall P evs.

(** The local [audio_path] was left alone. *)
Definition same_audio_path (w w' : state) : Prop :=
  audio_path_var w' = audio_path_var w.

(** A relation that lets the events in [Q] and all file changes through. *)
Class Frame (Q : event → Prop) (R : relation state) := {
  frame_preorder :: PreOrder R;
  frame_emit w ev :
    Q ev → R w (State (fs w) (trace w ++ [ev]) (audio_path_var w));
  frame_fs w files : R w (State files (trace w) (audio_path_var w))
}.


(** ** Scenarios

    An environment in which a call fails exactly when [fail] gives an
    exception for the event of that call, and answers with fixed values
    otherwise. *)

Module Scenario.

Definition answer {A} (err : option exn) (a : A) : result A :=
  match err with
  | Some e => Raised e
  | None => Returned a
  end.

Definition env (uploaded_file : option string) (video_url selected : string)
    (info_dict : gmap string string) (has_audio : bool)
    (fail : event → option exn) : Env := {|
  tmp_download_stem := "/tmp/tmpq7dl";
  tmp_upload_stem := "/tmp/tmpq7up";
  tmp_speech_stem := "/tmp/tmpq7sp";
  ui_slider := λ _ _ value _, value;
  ui_uploaded_file := uploaded_file;
  ui_video_url := video_url;
  ui_selectbox := λ _, selected;
  st_video_error := λ path, fail (St_video path);
  open_error := λ path, fail (File_open path "rb");
  remove_error := λ path, fail (Os_remove path);
  enoent_msg := λ path, "[Errno 2] No such file or directory: '" +:+ path +:+ "'";
  upload_failure :=
    match fail (File_open "/tmp/tmpq7up.mp4" "wb") with
    | Some e => Some (Upload_open, e)
    | None => pair Upload_write <$> fail (File_write "/tmp/tmpq7up.mp4")
    end;
  tmp_speech_error := None;
  ydl_extract_info := λ _ url, answer (fail (Ydl_extract_info url true)) info_dict;
  ydl_downloaded := λ _, {["/tmp/tmpq7dl.webm"]};
  ydl_prepare_filename := λ _, answer (fail Ydl_prepare_filename) "/tmp/tmpq7dl.webm";
  clip_open_error := λ path, fail (Clip_open path);
  clip_has_audio := λ _, has_audio;
  clip_write_error := λ _ path, fail (Clip_write_audiofile path);
  clip_write_leaves := λ _ _, true;
  str_radd := λ _ o,
    Raised (Exn TypeError
              ("can only concatenate str (not " +:+ dquote +:+ obj_type o
               +:+ dquote +:+ ") to str"));
  groq_transcribe := λ path, answer (fail (Groq_transcribe path)) "hello world";
  genai_generate := λ model content, answer (fail (Genai_generate model content)) "a summary";
  translator_translate := λ text target,
    answer (fail (Translate text target)) (VObj (PyObj "TranslationResult" "saaraansh"));
  gtts_new_error := λ text lang, fail (Gtts_new text lang);
  gtts_save_error := λ _ _ path, fail (Gtts_save path)
|}.

(** No call fails. *)
Definition never : event → option exn := λ _, None.

(** The call with event [ev] fails with [e]; no other call fails. *)
Definition only (ev : event) (e : exn) : event → option exn :=
  λ ev', if bool_decide (ev' = ev) then Some e else None.

End Scenario.

(** ** More to state properties with *)

(** [c in s] for a character. *)
Fixpoint occurs (c : ascii) (s : string) : bool :=
  match s with
  | EmptyString => false
  | String d s' => if Ascii.eqb c d then true else occurs c s'
  end.

(** What a stage after the acquisition asks of the outside. *)
Definition stage_call (ev : event) : Prop :=
  match ev with
  | Clip_open _ | Clip_write_audiofile _ | Clip_close | Audio_close
  | File_open _ _ | Groq_transcribe _ | Genai_generate _ _ | Translate _ _
  | Gtts_new _ _ | Gtts_save _ | Os_remove _ => True
  | _ => False
  end.

(** A call to the downloader. *)
Definition downloader_call (ev : event) : Prop :=
  match ev with
  | Ydl_open _ | Ydl_extract_info _ _ | Ydl_prepare_filename => True
  | _ => False
  end.


(** No file was removed. *)
Definition keeps_files (w w' : state) : Prop := fs w ⊆ fs w'.

(** No file was removed, and the trace only grew. *)
Definition only_adds (w w' : state) : Prop :=
  fs w ⊆ fs w' ∧ ∃ evs, trace w' = trace w ++ evs.

(** What the [finally] block does to the outside: deletions, and
    messages to the user. *)
Definition cleanup_event (ev : event) : Prop :=
  match ev with
  | Os_remove _ | St_write _ => True
  | _ => False
  end.

(** Every file on disk afterwards was there before or is one of
    [allowed]. *)
Definition creates_within (allowed : gset string) (w w' : state) : Prop :=
  fs w' ⊆ allowed ∪ fs w.

(** * Properties *)

(** ** The model on concrete inputs *)

Example endswith_examples :
  PyStr.endswith "/tmp/tmpk3.webm" ".webm" = true ∧
  PyStr.endswith "mp4" ".mp4" = false ∧
  PyStr.endswith "clip.mp4.bak" ".mp4" = false.
Proof. by vm_compute. Qed.

Example replace_examples :
  PyStr.replace "a.mp4.mp4" ".mp4" ".mp3" = "a.mp3.mp3" ∧
  PyStr.replace "aaa" "aa" "b" = "ba" ∧
  PyStr.replace "ab" "" "-" = "-a-b-".
Proof. by vm_compute. Qed.

Example of_int_examples :
  PyStr.of_int 250 = "250" ∧ PyStr.of_int 0 = "0" ∧ PyStr.of_int (-7) = "-7".
Proof. by vm_compute. Qed.

Example temp_audio_path_examples :
  temp_audio_path "/tmp/tmpq7dl.webm" = "/tmp/tmpq7dl.mp3" ∧
  temp_audio_path "/tmp/tmpq7up.mp4" = "/tmp/tmpq7up.mp3" ∧
  temp_audio_path "clip.mkv" = "clip.mkv.mp3" ∧
  temp_audio_path "clip" = "clip.mp3".
Proof. by vm_compute. Qed.

Example issubclass_examples :
  issubclass PermissionError OSError = true ∧
  issubclass FileNotFoundError PermissionError = false ∧
  issubclass OSError PermissionError = false ∧
  issubclass IndexError Exception = true.
Proof. by vm_compute. Qed.

Example main_upload_run :
  (main Sample.env (Sample.disk [])).1 = Returned () ∧
  elements (fs (main Sample.env (Sample.disk [])).2) = ["/tmp/tmpq7sp.mp3"] ∧
  trace (main Sample.env (Sample.disk [])).2 =
  [ St_title "Video Summarizer and Translator";
    St_slider "Select length of the summary (in words):" 50 500 250 10;
    St_file_uploader "Upload a video file" ["mp4"; "mov"; "avi"];
    St_text_input "Or enter a video URL";
    File_open "/tmp/tmpq7up.mp4" "wb";
    File_write "/tmp/tmpq7up.mp4";
    St_video "/tmp/tmpq7up.mp4";
    St_write (VStr "Processing your video...");
    Clip_open "/tmp/tmpq7up.mp4";
    Clip_write_audiofile "/tmp/tmpq7up.mp3";
    Clip_close;
    Audio_close;
    File_open "/tmp/tmpq7up.mp3" "rb";
    Groq_transcribe "/tmp/tmpq7up.mp3";
    St_write (VStr "Summarizing text...");
    Genai_generate "gemini-pro" (create_prompt 250 +:+ "hello world");
    St_write (VStr "Summary:");
    St_write (VStr "a summary");
    St_selectbox "Select language to translate the summary" language_options.*2;
    Translate (VStr "a summary") "en";
    St_write (VStr "Translated Summary (English):");
    St_write (VStr "saaraansh");
    St_write (VStr "Generating audio from summary...");
    Gtts_new (VStr "saaraansh") "en";
    Gtts_save "/tmp/tmpq7sp.mp3";
    St_audio "/tmp/tmpq7sp.mp3" "audio/mp3";
    Os_remove "/tmp/tmpq7up.mp4";
    Os_remove "/tmp/tmpq7up.mp3" ].
Proof. by vm_compute. Qed.


(** ** Strings *)

Section StringFacts.
Implicit Types s t u old new pre post suffix : string.

Lemma str_app_cons c s t : String c s +:+ t = String c (s +:+ t).
Proof. reflexivity. Qed.

Lemma str_app_nil_l s : "" +:+ s = s.
Proof. reflexivity. Qed.

Lemma str_app_nil_r s : s +:+ "" = s.
Proof. induction s as [|c s IH]; [done|]. by rewrite str_app_cons, IH. Qed.

Lemma str_app_assoc s t u : (s +:+ t) +:+ u = s +:+ (t +:+ u).
Proof. induction s as [|c s IH]; [done|]. by rewrite !str_app_cons, IH. Qed.

Lemma str_app_length s t :
  String.length (s +:+ t) = (String.length s + String.length t)%nat.
Proof. induction s as [|c s IH]; [done|]. rewrite str_app_cons. simpl. by rewrite IH. Qed.

Lemma str_app_inj_length s s' t t' :
  String.length s = String.length s' → s +:+ t = s' +:+ t' → s = s' ∧ t = t'.
Proof.
  revert s'. induction s as [|c s IH]; intros [|c' s'] Hlen Heq;
    try discriminate; [done|].
  rewrite !str_app_cons in Heq.
  injection Heq as -> Heq. injection Hlen as Hlen.
  destruct (IH _ Hlen Heq) as [-> ->]. done.
Qed.

Lemma prefix_app old rest : String.prefix old (old +:+ rest) = true.
Proof.
  induction old as [|c old IH]; [by destruct rest|].
  rewrite str_app_cons. simpl.
  destruct (ascii_dec c c) as [_|Hne]; [apply IH | done].
Qed.

Lemma prefix_split old s :
  String.prefix old s = true → ∃ rest, s = old +:+ rest.
Proof.
  revert s. induction old as [|c old IH]; intros s H.
  - by exists s.
  - destruct s as [|d s]; simpl in H; [done|].
    destruct (ascii_dec c d) as [->|]; [|done].
    destruct (IH _ H) as [rest ->]. by exists rest.
Qed.

Lemma endswith_self s : PyStr.endswith s s = true.
Proof. destruct s; simpl; by rewrite ?String.eqb_refl, ?Ascii.eqb_refl. Qed.

Lemma endswith_cons c s suffix :
  PyStr.endswith s suffix = true → PyStr.endswith (String c s) suffix = true.
Proof.
  intros H. change (PyStr.endswith (String c s) suffix)
    with (if String.eqb (String c s) suffix then true else PyStr.endswith s suffix).
  rewrite H. by destruct (String.eqb _ _).
Qed.

Lemma endswith_app pre suffix : PyStr.endswith (pre +:+ suffix) suffix = true.
Proof.
  induction pre as [|c pre IH]; [apply endswith_self|].
  rewrite str_app_cons. by apply endswith_cons.
Qed.

Lemma endswith_split s suffix :
  PyStr.endswith s suffix = true → ∃ pre, s = pre +:+ suffix.
Proof.
  induction s as [|c s IH].
  - destruct suffix; [by exists "" | done].
  - change (PyStr.endswith (String c s) suffix)
      with (if String.eqb (String c s) suffix then true else PyStr.endswith s suffix).
    destruct (String.eqb (String c s) suffix) eqn:Heq.
    + intros _. apply String.eqb_eq in Heq as <-. by exists "".
    + intros H. destruct (IH H) as [pre ->]. by exists (String c pre).
Qed.

(** The scan passes over [skip] pending characters. *)
Lemma replace_scan_skip old new pre rest :
  PyStr.replace_scan old new (String.length pre) (pre +:+ rest)
  = PyStr.replace_scan old new 0 rest.
Proof. induction pre as [|c pre IH]; [done|]. rewrite str_app_cons. simpl. apply IH. Qed.

Lemma replace_scan_cursor old new c s :
  PyStr.replace_scan old new 0 (String c s)
  = if String.prefix old (String c s)
    then new +:+ PyStr.replace_scan old new (Nat.pred (String.length old)) s
    else String c (PyStr.replace_scan old new 0 s).
Proof. reflexivity. Qed.

(** An occurrence at the cursor is replaced and the scan goes on
    behind it. *)
Lemma replace_scan_match c old new rest :
  PyStr.replace_scan (String c old) new 0 (String c old +:+ rest)
  = new +:+ PyStr.replace_scan (String c old) new 0 rest.
Proof.
  rewrite str_app_cons, replace_scan_cursor.
  rewrite <- str_app_cons, prefix_app. simpl Nat.pred. by rewrite replace_scan_skip.
Qed.

(** No occurrence at the cursor: the character is copied. *)
Lemma replace_scan_copy c old new s :
  String.prefix old (String c s) = false →
  PyStr.replace_scan old new 0 (String c s)
  = String c (PyStr.replace_scan old new 0 s).
Proof. intros H. by rewrite replace_scan_cursor, H. Qed.

(** The leftmost occurrence of [old] is replaced: everything before it
    is kept, and the scan goes on behind it. *)
Lemma replace_scan_first c old new pre post :
  ∃ pre' post',
    pre +:+ String c old +:+ post = pre' +:+ String c old +:+ post' ∧
    PyStr.replace_scan (String c old) new 0 (pre +:+ String c old +:+ post)
    = pre' +:+ new +:+ PyStr.replace_scan (String c old) new 0 post'.
Proof.
  induction pre as [|d pre (pre' & post' & Heq & IH)].
  - exists "", post. split; [done|]. rewrite !str_app_nil_l. apply replace_scan_match.
  - rewrite str_app_cons.
    destruct (String.prefix (String c old) (String d (pre +:+ String c old +:+ post)))
      eqn:Hp.
    + apply prefix_split in Hp as [rest Hrest]. exists "", rest.
      rewrite !str_app_nil_l, Hrest. split; [done|]. apply replace_scan_match.
    + exists (String d pre'), post'. rewrite replace_scan_copy by done.
      rewrite IH, !(str_app_cons d pre'). by rewrite Heq.
Qed.

(** A replacement that is not longer than what it replaces does not
    lengthen the string. *)
Lemma replace_scan_length old new skip s :
  (String.length new ≤ String.length old)%nat →
  (String.length (PyStr.replace_scan old new skip s) + Nat.min skip (String.length s)
   ≤ String.length s)%nat.
Proof.
  intros Hlen. revert skip. induction s as [|c s IH]; intros skip; [simpl; lia|].
  destruct skip as [|k].
  - rewrite replace_scan_cursor. destruct (String.prefix old (String c s)) eqn:Hp.
    + apply prefix_split in Hp as [rest Hrest].
      specialize (IH (Nat.pred (String.length old))).
      assert (String.length (String c s) = String.length (old +:+ rest)) as Hl
        by (by rewrite Hrest).
      rewrite str_app_length in *. simpl in *. lia.
    + specialize (IH 0%nat). simpl in *. lia.
  - specialize (IH k). simpl in *. lia.
Qed.

(** Replacing an occurring, non-empty [old] by a different [new] that
    is not longer changes the string. *)
Lemma replace_changes s old new :
  old ≠ "" → old ≠ new → (String.length new ≤ String.length old)%nat →
  (∃ pre post, s = pre +:+ old +:+ post) →
  PyStr.replace s old new ≠ s.
Proof.
  intros Hne Hdiff Hlen (pre & post & ->).
  destruct old as [|c old]; [done|]. unfold PyStr.replace.
  destruct (replace_scan_first c old new pre post) as (pre' & post' & Heq & ->).
  rewrite Heq. intros Hsame. apply (inj (String.app pre')) in Hsame.
  pose proof (replace_scan_length (String c old) new 0 post' Hlen) as Hle.
  assert (String.length new = String.length (String c old)) as Hl.
  { apply (f_equal String.length) in Hsame. rewrite !str_app_length in Hsame. lia. }
  apply str_app_inj_length in Hsame as [-> _]; done.
Qed.

(** When the only occurrence of [old] in [s] is its suffix, the
    replacement swaps exactly that suffix. *)
Lemma replace_only_suffix c old new pre :
  (∀ pre' post', pre +:+ String c old = pre' +:+ String c old +:+ post' → post' = "") →
  PyStr.replace (pre +:+ String c old) (String c old) new = pre +:+ new.
Proof.
  intros Honly. unfold PyStr.replace.
  destruct (replace_scan_first c old new pre "") as (pre' & post' & Heq & Hrep).
  rewrite str_app_nil_r in Heq, Hrep. rewrite Hrep.
  pose proof (Honly _ _ Heq) as ->. rewrite str_app_nil_r in Heq.
  assert (pre = pre') as <-; [|by rewrite str_app_nil_r].
  assert (String.length pre = String.length pre') as Hl.
  { apply (f_equal String.length) in Heq. rewrite !str_app_length in Heq. lia. }
  by apply str_app_inj_length in Heq as [? _].
Qed.
End StringFacts.

(** ** Running computations *)

Lemma run_bind {A B} (m : Py A) (f : A → Py B) w :
  (m ≫= f) w =
  match m w with
  | (Returned a, w') => f a w'
  | (Raised e, w') => (Raised e, w')
  end.
Proof. reflexivity. Qed.

Lemma run_emit ev w :
  emit ev w = (Returned (), State (fs w) (trace w ++ [ev]) (audio_path_var w)).
Proof. reflexivity. Qed.

Lemma run_call {A} ev (r : result A) w :
  call ev r w = (r, State (fs w) (trace w ++ [ev]) (audio_path_var w)).
Proof. reflexivity. Qed.

Lemma run_ret {A} (a : A) w : (mret a : Py A) w = (Returned a, w).
Proof. reflexivity. Qed.

Lemma run_raise {A} e w : @raise A e w = (Raised e, w).
Proof. reflexivity. Qed.

Lemma run_finish {A} (r : result A) w : finish r w = (r, w).
Proof. reflexivity. Qed.

Lemma run_st_write text w :
  st_write text w
  = (Returned (), State (fs w) (trace w ++ [St_write (VStr text)]) (audio_path_var w)).
Proof. reflexivity. Qed.

Lemma run_os_path_exists path w :
  os_path_exists path w = (Returned (bool_decide (path ∈ fs w)), w).
Proof. reflexivity. Qed.

Lemma run_create_file path w :
  create_file path w = (Returned (), State ({[path]} ∪ fs w) (trace w) (audio_path_var w)).
Proof. reflexivity. Qed.

Lemma run_delete_file path w :
  delete_file path w = (Returned (), State (fs w ∖ {[path]}) (trace w) (audio_path_var w)).
Proof. reflexivity. Qed.

Lemma run_set_audio_path v w :
  set_audio_path v w = (Returned (), State (fs w) (trace w) v).
Proof. reflexivity. Qed.

Lemma run_get_audio_path w : get_audio_path w = (Returned (audio_path_var w), w).
Proof. reflexivity. Qed.

(** Run the computation in the goal as far as its shape is known. *)
Ltac run :=
  repeat (progress
    (rewrite ?run_bind, ?run_ret, ?run_raise, ?run_finish, ?run_st_write, ?run_emit,
       ?run_call, ?run_os_path_exists, ?run_create_file, ?run_delete_file,
       ?run_set_audio_path, ?run_get_audio_path;
     cbv beta iota;
     cbn [fs trace audio_path_var negb outcome_of fst snd])).

(** Every exception class of the model derives from [Exception]. *)
Lemma issubclass_Exception c : issubclass c Exception = true.
Proof. by destruct c. Qed.

(** [except Exception] turns every exception of the body into the
    handler's outcome. *)
Lemma run_try_except_Exception {A} (body : Py A) handler w :
  try_except body Exception handler w =
  match body w with
  | (Returned a, w') => (Returned a, w')
  | (Raised e, w') => handler e w'
  end.
Proof.
  unfold try_except. destruct (body w) as [[a|e] w']; [done|].
  by rewrite issubclass_Exception.
Qed.

Lemma run_try_finally {A} (body : Py A) final w :
  try_finally body final w =
  match final (body w).2 with
  | (Returned _, w'') => ((body w).1, w'')
  | (Raised e, w'') => (Raised e, w'')
  end.
Proof. unfold try_finally. by destruct (body w). Qed.

(** ** Frames *)

Global Instance extends_preorder P : PreOrder (extends P).
Proof.
  split.
  - intros w. exists []. by rewrite app_nil_r.
  - intros w1 w2 w3 (evs & H12 & HP) (evs' & H23 & HP').
    exists (evs ++ evs'). rewrite H23, H12, (assoc_L (++)).
    split; [done | by apply Forall_app].
Qed.

Global Instance extends_frame P : Frame P (extends P).
Proof.
  split; [apply _ | |].
  - intros w ev HP. exists [ev]. split; [done | by constructor].
  - intros w files. exists []. by rewrite app_nil_r.
Qed.

Global Instance same_audio_path_preorder : PreOrder same_audio_path.
Proof. unfold same_audio_path. split; [done | intros ???; congruence]. Qed.

Global Instance same_audio_path_frame : Frame (λ _, True) same_audio_path.
Proof. split; [apply _ | done | done]. Qed.

Section Moves.
Context {Q : event → Prop} {R : relation state} `{!Frame Q R}.

Lemma moves_ret {A} (a : A) : moves R (mret a).
Proof. intros w. simpl. reflexivity. Qed.

Lemma moves_raise {A} e : moves R (@raise A e).
Proof. intros w. simpl. reflexivity. Qed.

Lemma moves_finish {A} (r : result A) : moves R (finish r).
Proof. intros w. simpl. reflexivity. Qed.

Lemma moves_bind_ret {A B} (a : A) (f : A → Py B) :
  moves R (f a) → moves R (mret a ≫= f).
Proof. intros Hf w. apply Hf. Qed.

Lemma moves_bind_raise {A B} e (f : A → Py B) : moves R (raise e ≫= f).
Proof. intros w. simpl. reflexivity. Qed.

Lemma moves_bind {A B} (m : Py A) (f : A → Py B) :
  moves R m → (∀ a, moves R (f a)) → moves R (m ≫= f).
Proof.
  intros Hm Hf w. rewrite run_bind. specialize (Hm w).
  destruct (m w) as [[a|e] w1]; simpl in *; [|done].
  etrans; [apply Hm | apply Hf].
Qed.

Lemma moves_try_except {A} (body : Py A) cls handler :
  moves R body → (∀ e, moves R (handler e)) → moves R (try_except body cls handler).
Proof.
  intros Hm Hh w. unfold try_except. specialize (Hm w).
  destruct (body w) as [[a|e] w1]; simpl in *; [done|].
  destruct (issubclass _ _); [|done].
  etrans; [apply Hm | apply Hh].
Qed.

Lemma moves_try_finally {A} (body : Py A) final :
  moves R body → moves R final → moves R (try_finally body final).
Proof.
  intros Hm Hf w. rewrite run_try_finally. specialize (Hm w). specialize (Hf (body w).2).
  destruct (final _) as [[[]|e] w2]; simpl in *; by etrans.
Qed.

Lemma moves_emit ev : Q ev → moves R (emit ev).
Proof. intros HQ w. by apply frame_emit. Qed.

Lemma moves_call {A} ev (r : result A) : Q ev → moves R (call ev r).
Proof. intros HQ w. rewrite run_call. by apply frame_emit. Qed.

Lemma moves_st_write text : Q (St_write (VStr text)) → moves R (st_write text).
Proof. apply moves_emit. Qed.

Lemma moves_create_file path : moves R (create_file path).
Proof. intros w. apply frame_fs. Qed.

Lemma moves_create_files paths : moves R (create_files paths).
Proof. intros w. apply frame_fs. Qed.

Lemma moves_delete_file path : moves R (delete_file path).
Proof. intros w. apply frame_fs. Qed.

Lemma moves_os_path_exists path : moves R (os_path_exists path).
Proof. intros w. simpl. reflexivity. Qed.

Lemma moves_get_audio_path : moves R get_audio_path.
Proof. intros w. simpl. reflexivity. Qed.

Lemma moves_str_add E prompt text : moves R (str_add E prompt text).
Proof. destruct text; first [apply moves_ret | apply moves_raise | apply moves_finish]. Qed.

Lemma moves_first_item {A} (xs : list A) : moves R (first_item xs).
Proof. destruct xs; [apply moves_raise | apply moves_ret]. Qed.
End Moves.

(** Assigning [audio_path] leaves the trace alone. *)
Lemma moves_set_audio_path P v : moves (extends P) (set_audio_path v).
Proof. intros w. exists []. by rewrite app_nil_r. Qed.

(** One step of a proof of [moves]: follow the shape of the computation.
    What is left are the events it emits, which have to be in [Q]. *)
Ltac moves_step :=
  lazymatch goal with
  | |- moves _ (mbind _ (mret _)) => apply moves_bind_ret
  | |- moves _ (mbind _ (raise _)) => apply moves_bind_raise
  | |- moves _ (mbind _ (str_add _ _ ?text)) => destruct text; unfold str_add
  | |- moves _ (mbind _ _) => apply moves_bind; [|intros ?]
  | |- moves _ (mret _) => apply moves_ret
  | |- moves _ (raise _) => apply moves_raise
  | |- moves _ (finish _) => apply moves_finish
  | |- moves _ (try_except _ _ _) => apply moves_try_except; [|intros ?]
  | |- moves _ (try_finally _ _) => apply moves_try_finally
  | |- moves _ (emit _) => apply moves_emit
  | |- moves _ (call _ _) => apply moves_call
  | |- moves _ (st_write _) => apply moves_st_write
  | |- moves _ (create_file _) => apply moves_create_file
  | |- moves _ (create_files _) => apply moves_create_files
  | |- moves _ (delete_file _) => apply moves_delete_file
  | |- moves _ (os_path_exists _) => apply moves_os_path_exists
  | |- moves _ get_audio_path => apply moves_get_audio_path
  | |- moves (extends _) (set_audio_path _) => apply moves_set_audio_path
  | |- moves _ (str_add _ _ _) => apply moves_str_add
  | |- moves _ (first_item _) => apply moves_first_item
  | |- moves _ (if ?b then _ else _) => destruct b
  | |- moves _ (match ?x with _ => _ end) => destruct x
  | |- moves _ (let _ := _ in _) => cbv zeta
  end.

(** All of the program's functions, opened up to the monad's operations. *)
Ltac open_program :=
  unfold main, main_guarded, main_cleanup, main_process, main_stages, main_acquire,
    download_video, extract_audio, write_audiofile, st_video, transcribe_audio,
    transcription_request, open_read, summarize_text, translate_text, text_to_speech,
    named_temporary_file, os_remove.

(** ** The audio file path *)

Section AudioPath.
Implicit Types video_path pre : string.

Lemma temp_audio_path_webm video_path :
  PyStr.endswith video_path ".webm" = true →
  temp_audio_path video_path = PyStr.replace video_path ".webm" ".mp3".
Proof. intros H. unfold temp_audio_path. by rewrite H. Qed.

Lemma temp_audio_path_mp4 video_path :
  PyStr.endswith video_path ".webm" = false →
  PyStr.endswith video_path ".mp4" = true →
  temp_audio_path video_path = PyStr.replace video_path ".mp4" ".mp3".
Proof. intros H1 H2. unfold temp_audio_path. by rewrite H1, H2. Qed.

Lemma temp_audio_path_other video_path :
  PyStr.endswith video_path ".webm" = false →
  PyStr.endswith video_path ".mp4" = false →
  temp_audio_path video_path = video_path +:+ ".mp3".
Proof. intros H1 H2. unfold temp_audio_path. by rewrite H1, H2. Qed.

(** A path in which the extension occurs only at the end gets the
    extension swapped. *)
Lemma temp_audio_path_webm_once pre :
  (∀ pre' post', pre +:+ ".webm" = pre' +:+ ".webm" +:+ post' → post' = "") →
  temp_audio_path (pre +:+ ".webm") = pre +:+ ".mp3".
Proof.
  intros Honly. rewrite temp_audio_path_webm by apply endswith_app.
  by apply (replace_only_suffix "." "webm" ".mp3").
Qed.

Lemma suffix_occurs video_path suffix :
  PyStr.endswith video_path suffix = true →
  ∃ pre post, video_path = pre +:+ suffix +:+ post.
Proof.
  intros [pre ->]%endswith_split. exists pre, "". by rewrite str_app_nil_r.
Qed.

(** Each of the three branches gives a path other than the video's. *)
Lemma temp_audio_path_differs video_path :
  temp_audio_path video_path ≠ video_path.
Proof.
  unfold temp_audio_path.
  destruct (PyStr.endswith video_path ".webm") eqn:Hwebm;
    [|destruct (PyStr.endswith video_path ".mp4") eqn:Hmp4].
  - apply replace_changes; [done | done | simpl; lia | by apply suffix_occurs].
  - apply replace_changes; [done | done | simpl; lia | by apply suffix_occurs].
  - intros Heq. apply (f_equal String.length) in Heq.
    rewrite str_app_length in Heq. simpl in Heq. lia.
Qed.

Lemma truthy_app_r s t : PyStr.truthy t = true → PyStr.truthy (s +:+ t) = true.
Proof. destruct s; [done|]. by rewrite str_app_cons. Qed.

Lemma replace_truthy video_path c old new :
  PyStr.truthy new = true →
  PyStr.endswith video_path (String c old) = true →
  PyStr.truthy (PyStr.replace video_path (String c old) new) = true.
Proof.
  intros Hnew (pre & post & ->)%suffix_occurs. unfold PyStr.replace.
  destruct (replace_scan_first c old new pre post) as (pre' & post' & _ & ->).
  apply truthy_app_r. destruct new; [done|]. by rewrite str_app_cons.
Qed.

Lemma temp_audio_path_truthy video_path :
  PyStr.truthy (temp_audio_path video_path) = true.
Proof.
  unfold temp_audio_path.
  destruct (PyStr.endswith video_path ".webm") eqn:Hwebm;
    [|destruct (PyStr.endswith video_path ".mp4") eqn:Hmp4].
  - by apply replace_truthy.
  - by apply replace_truthy.
  - by apply truthy_app_r.
Qed.
End AudioPath.

(** ** The stages, run *)

Section Stages.
Context (E : Env).

(** What a returning [extract_audio] has done. *)
Lemma extract_audio_returned video_path w audio_path w' :
  extract_audio E video_path w = (Returned audio_path, w') →
  audio_path = temp_audio_path video_path ∧
  video_path ∈ fs w ∧
  w' = State (if clip_write_leaves E video_path audio_path
              then {[audio_path]} ∪ fs w else fs w)
             (trace w ++ [Clip_open video_path; Clip_write_audiofile audio_path;
                          Clip_close; Audio_close])
             (audio_path_var w).
Proof.
  unfold extract_audio, write_audiofile. run.
  destruct (decide (video_path ∈ fs w)) as [Hin|Hout];
    [rewrite bool_decide_eq_true_2 by done | rewrite bool_decide_eq_false_2 by done];
    run; [|done].
  destruct (clip_open_error E video_path); run; [done|].
  destruct (clip_has_audio E video_path); run; [|done].
  destruct (clip_write_leaves E video_path _) eqn:Hleaves; run;
    (destruct (clip_write_error E video_path _); run; [done|]);
    intros [= <- <-]; (split_and!; [done..|]);
    by rewrite Hleaves, <- !(assoc_L (++)).
Qed.

Lemma transcribe_audio_run audio_path w :
  transcribe_audio E audio_path w =
  if bool_decide (audio_path ∈ fs w) then
    match open_error E audio_path with
    | Some e =>
        (Returned (VStr ("An error occurred during transcription: " +:+ exn_msg e)),
         State (fs w) (trace w ++ [File_open audio_path "rb"]) (audio_path_var w))
    | None =>
        (Returned (VStr match groq_transcribe E audio_path with
                        | Returned text => text
                        | Raised e => "An error occurred during transcription: " +:+ exn_msg e
                        end),
         State (fs w) (trace w ++ [File_open audio_path "rb"; Groq_transcribe audio_path])
               (audio_path_var w))
    end
  else
    (Returned (VStr ("An error occurred during transcription: " +:+ enoent_msg E audio_path)),
     State (fs w) (trace w ++ [File_open audio_path "rb"]) (audio_path_var w)).
Proof.
  unfold transcribe_audio, transcription_request, open_read.
  rewrite run_try_except_Exception. run.
  destruct (bool_decide (audio_path ∈ fs w)); run; [|done].
  destruct (open_error E audio_path); run; [done|].
  rewrite <- (assoc_L (++)). by destruct (groq_transcribe E audio_path).
Qed.

Lemma summarize_text_run text prompt w :
  summarize_text E (VStr text) prompt w =
  (Returned (VStr match genai_generate E "gemini-pro" (prompt +:+ text) with
                  | Returned response => response
                  | Raised e => "An error occurred during summarization: " +:+ exn_msg e
                  end),
   State (fs w) (trace w ++ [Genai_generate "gemini-pro" (prompt +:+ text)])
         (audio_path_var w)).
Proof.
  unfold summarize_text, str_add. rewrite run_try_except_Exception. run.
  by destruct (genai_generate E "gemini-pro" (prompt +:+ text)).
Qed.

Lemma translate_text_run text target w :
  translate_text E text target w =
  (Returned (VStr match translator_translate E text target with
                  | Returned translated => py_str translated
                  | Raised e => "An error occurred during translation: " +:+ exn_msg e
                  end),
   State (fs w) (trace w ++ [Translate text target]) (audio_path_var w)).
Proof.
  unfold translate_text. rewrite run_try_except_Exception. run.
  by destruct (translator_translate E text target).
Qed.
End Stages.

(** ** Audio extraction *)

(** C2.  On the existing file "talk.mp4.mp4" [extract_audio] returns
    "talk.mp3.mp3", and on "/srv/cache.webm/tmpq7dl.webm" it returns
    "/srv/cache.mp3/tmpq7dl.mp3": [str.replace] rewrites every occurrence
    of the extension, not only the suffix, so the result is not the input
    with its suffix replaced by ".mp3" (which is "talk.mp4.mp3", and
    "/srv/cache.webm/tmpq7dl.mp3"). *)
Theorem extract_audio_replaces_every_occurrence :
  PyStr.endswith "talk.mp4.mp4" ".mp4" = true ∧
  (extract_audio Sample.env "talk.mp4.mp4" (Sample.disk ["talk.mp4.mp4"])).1
  = Returned "talk.mp3.mp3" ∧
  "talk.mp3.mp3" ≠ "talk.mp4" +:+ ".mp3" ∧
  PyStr.endswith "/srv/cache.webm/tmpq7dl.webm" ".webm" = true ∧
  (extract_audio Sample.env "/srv/cache.webm/tmpq7dl.webm"
     (Sample.disk ["/srv/cache.webm/tmpq7dl.webm"])).1
  = Returned "/srv/cache.mp3/tmpq7dl.mp3" ∧
  "/srv/cache.mp3/tmpq7dl.mp3" ≠ "/srv/cache.webm/tmpq7dl" +:+ ".mp3".
Proof.
  split_and!; [by vm_compute | by vm_compute | discriminate
              | by vm_compute | by vm_compute | discriminate].
Qed.

(** C3.  On a video path that does not exist, [extract_audio] raises
    FileNotFoundError and leaves the state as it was: no clip was opened
    and no audio file was written. *)
Theorem extract_audio_missing_video E video_path w :
  video_path ∉ fs w →
  extract_audio E video_path w
  = (Raised (Exn FileNotFoundError ("Video file not found: " +:+ video_path)), w).
Proof.
  intros Hmissing. unfold extract_audio. run.
  by rewrite bool_decide_eq_false_2.
Qed.

Lemma extract_audio_missing_video_witness :
  ("/tmp/gone.mp4" ∉ fs (Sample.disk [])) ∧
  extract_audio Sample.env "/tmp/gone.mp4" (Sample.disk [])
  = (Raised (Exn FileNotFoundError "Video file not found: /tmp/gone.mp4"), Sample.disk []).
Proof.
  assert ("/tmp/gone.mp4" ∉ fs (Sample.disk [])) as Hmissing by (by vm_compute).
  split; [exact Hmissing|].
  exact (extract_audio_missing_video Sample.env "/tmp/gone.mp4" (Sample.disk []) Hmissing).
Defined.

(** C9.  The audio path [extract_audio] returns is never the video path
    it was given, and the one audio file it writes is at the returned
    path, so the video file is not written over. *)
Theorem extract_audio_spares_video E video_path w audio_path w' :
  extract_audio E video_path w = (Returned audio_path, w') →
  audio_path ≠ video_path ∧
  ∀ path, Clip_write_audiofile path ∈ trace w' →
          Clip_write_audiofile path ∈ trace w ∨ path ≠ video_path.
Proof.
  intros (-> & _ & ->)%extract_audio_returned.
  pose proof (temp_audio_path_differs video_path) as Hne.
  split; [done|]. intros path. cbn [trace].
  rewrite elem_of_app, !elem_of_cons, elem_of_nil.
  intros [Hold | [[=] | [[= ->] | [[=] | [[=] | []]]]]]; [by left | by right].
Qed.

Lemma extract_audio_spares_video_witness :
  (extract_audio Sample.env "/tmp/tmpq7up.mp4" (Sample.disk ["/tmp/tmpq7up.mp4"])).1
  = Returned "/tmp/tmpq7up.mp3" ∧
  "/tmp/tmpq7up.mp3" ≠ "/tmp/tmpq7up.mp4".
Proof.
  split; [by vm_compute|].
  refine (proj1 (extract_audio_spares_video Sample.env "/tmp/tmpq7up.mp4"
                   (Sample.disk ["/tmp/tmpq7up.mp4"]) "/tmp/tmpq7up.mp3"
                   (extract_audio Sample.env "/tmp/tmpq7up.mp4"
                      (Sample.disk ["/tmp/tmpq7up.mp4"])).2 _)).
  vm_compute. reflexivity.
Defined.

(** ** Transcription and translation *)

(** C10.  [transcribe_audio] returns a string for every audio path and
    every state, and for a path that is not on disk that string is the
    transcription error message: the failing [open] is inside the
    [try]. *)
Theorem transcribe_audio_total E audio_path w :
  (∃ text w', transcribe_audio E audio_path w = (Returned (VStr text), w')) ∧
  (audio_path ∉ fs w →
   transcribe_audio E audio_path w
   = (Returned (VStr ("An error occurred during transcription: "
                      +:+ enoent_msg E audio_path)),
      State (fs w) (trace w ++ [File_open audio_path "rb"]) (audio_path_var w))).
Proof.
  rewrite transcribe_audio_run. split.
  - destruct (bool_decide _); [destruct (open_error E audio_path)|]; eauto.
  - intros Hmissing. by rewrite bool_decide_eq_false_2.
Qed.

Lemma transcribe_audio_total_witness :
  ("/tmp/gone.mp3" ∉ fs (Sample.disk [])) ∧
  transcribe_audio Sample.env "/tmp/gone.mp3" (Sample.disk [])
  = (Returned (VStr "An error occurred during transcription: [Errno 2] No such file or directory: '/tmp/gone.mp3'"),
     State ∅ [File_open "/tmp/gone.mp3" "rb"] None).
Proof.
  assert ("/tmp/gone.mp3" ∉ fs (Sample.disk [])) as Hmissing by (by vm_compute).
  split; [exact Hmissing|].
  exact (proj2 (transcribe_audio_total Sample.env "/tmp/gone.mp3" (Sample.disk [])) Hmissing).
Defined.

(** C7.  [translate_text] returns a string for every text and language
    code: [str()] of whatever the engine returned, a structured object
    included, or the translation error message when the engine raised. *)
Theorem translate_text_returns_str E text target_language w :
  ∃ s w',
    translate_text E text target_language w = (Returned (VStr s), w') ∧
    match translator_translate E text target_language with
    | Returned translated => s = py_str translated
    | Raised e => s = "An error occurred during translation: " +:+ exn_msg e
    end.
Proof.
  rewrite translate_text_run. eexists _, _. split; [done|].
  by destruct (translator_translate E text target_language).
Qed.

(** ** Acquisition *)


(** ** Summarization *)

Section Frames.
Context (E : Env).

(** [transcribe_audio] returns a string: what follows it runs on a
    string. *)
Lemma moves_bind_transcribed {Q : event → Prop} {R : relation state} `{!Frame Q R}
    {B} audio_path (f : value → Py B) :
  moves R (transcribe_audio E audio_path) →
  (∀ transcript, moves R (f (VStr transcript))) →
  moves R (transcribe_audio E audio_path ≫= f).
Proof.
  intros Hm Hf w. rewrite run_bind. specialize (Hm w). revert Hm.
  rewrite transcribe_audio_run.
  destruct (bool_decide (audio_path ∈ fs w)); [destruct (open_error E audio_path)|];
    cbn [fst snd]; intros Hm; (etrans; [apply Hm | apply Hf]).
Qed.

(** Nothing after the slider asks the summarizer for anything but the
    prompt for the slider's value in front of some text. *)
Lemma main_after_slider_prompt :
  let summary_length := ui_slider E 50 500 250 10 in
  moves (extends (prompt_for summary_length))
    (emit (St_file_uploader "Upload a video file" ["mp4"; "mov"; "avi"]) ;;
     emit (St_text_input "Or enter a video URL") ;;
     set_audio_path None ;;
     video_path ← main_acquire E (ui_uploaded_file E) (ui_video_url E);
     match video_path with
     | Some path =>
         if PyStr.truthy path then main_guarded E path summary_length else mret ()
     | None => mret ()
     end).
Proof.
  intros N.
  unfold main_acquire, main_guarded, main_cleanup, main_process, main_stages,
    download_video, extract_audio, write_audiofile, st_video, summarize_text,
    translate_text, text_to_speech, named_temporary_file, os_remove.
  repeat first
    [ lazymatch goal with
      | |- moves _ (mbind _ (transcribe_audio _ _)) =>
          apply moves_bind_transcribed;
          [unfold transcribe_audio, transcription_request, open_read | intros ?]
      | |- moves _ (mbind _ (str_add _ _ (VStr _))) => unfold str_add
      end
    | moves_step ];
    solve [ intros ? ? [=] | intros ? ? [= <- <-]; by eexists ].
Qed.

(** The stages after audio extraction leave the local [audio_path]
    alone. *)
Lemma main_stages_same_audio_path audio_path summary_length :
  moves same_audio_path (main_stages E audio_path summary_length).
Proof.
  open_program. repeat moves_step; done.
Qed.

Lemma main_cleanup_same_audio_path video_path :
  moves same_audio_path (main_cleanup E video_path).
Proof.
  open_program. repeat moves_step; done.
Qed.

(** The stages after audio extraction only add to the trace. *)
Lemma main_stages_extends audio_path summary_length :
  moves (extends (λ _, True)) (main_stages E audio_path summary_length).
Proof. open_program. repeat moves_step; done. Qed.
End Frames.

(** C6.  For every integer N the request [summarize_text] sends is the
    instruction template with N written out in it, followed by the
    transcript, and what it returns depends on the service's answer only:
    no N is rejected.  In [main] the slider is created with the bounds 50
    and 500, and every request carries the prompt for the value the slider
    gave. *)
Theorem summary_request_embeds_word_count E N text w :
  let request :=
    ("You are a YouTube video summarizer. You will be taking the transcript text"
     +:+ nl +:+
     "and summarizing the entire video and providing the important summary within "
     +:+ PyStr.of_int N +:+
     " words. Please provide the summary of the text given here: ") +:+ text in
  summarize_text E (VStr text) (create_prompt N) w
  = (Returned (VStr match genai_generate E "gemini-pro" request with
                    | Returned response => response
                    | Raised e => "An error occurred during summarization: " +:+ exn_msg e
                    end),
     State (fs w) (trace w ++ [Genai_generate "gemini-pro" request]) (audio_path_var w)) ∧
  ∃ rest,
    trace (main E w).2
    = trace w ++ St_title "Video Summarizer and Translator"
              :: St_slider "Select length of the summary (in words):" 50 500 250 10
              :: rest ∧
    Forall (prompt_for (ui_slider E 50 500 250 10)) rest.
Proof.
  intros request. split; [apply summarize_text_run|].
  unfold main. rewrite run_bind, run_emit. cbv beta iota zeta.
  rewrite run_bind, run_emit. cbv beta iota.
  match goal with |- context [ mbind ?f ?m ?w0 ] =>
    destruct (main_after_slider_prompt E w0) as (rest & Htrace & Hrest) end.
  cbv zeta in Htrace. exists rest. split; [|done].
  rewrite Htrace. cbn [trace]. by rewrite <- !(assoc_L (++)).
Qed.

(** ** A failed transcription *)

(** A language name taken from the table has a code in it, and the
    comprehension of line 167 finds one. *)
Lemma language_code_found (selected : string) :
  selected ∈ language_options.*2 →
  ∃ target others,
    (filter (λ kv, kv.2 = selected) language_options).*1 = target :: others ∧
    (target, selected) ∈ language_options.
Proof.
  intros ([code name] & -> & Hin)%list_elem_of_fmap. cbn [snd].
  assert ((code, name) ∈ filter (λ kv, kv.2 = name) language_options) as Hfound
    by (by apply list_elem_of_filter).
  destruct (filter (λ kv, kv.2 = name) language_options) as [|[code' name'] others] eqn:Hf.
  - by apply elem_of_nil in Hfound.
  - exists code', others.*1. split; [done|].
    assert ((code', name') ∈ filter (λ kv, kv.2 = name) language_options) as Hhead
      by (rewrite Hf; left).
    apply list_elem_of_filter in Hhead as [Hname ?]. simpl in Hname. by subst.
Qed.

Section FailedTranscription.
Context (E : Env) (audio_path : string) (summary_length : Z) (w : state) (e : exn).
Hypothesis on_disk : audio_path ∈ fs w.
Hypothesis opens : open_error E audio_path = None.
Hypothesis service_raises : groq_transcribe E audio_path = Raised e.

Lemma transcribe_audio_service_raises :
  transcribe_audio E audio_path w
  = (Returned (VStr ("An error occurred during transcription: " +:+ exn_msg e)),
     State (fs w) (trace w ++ [File_open audio_path "rb"; Groq_transcribe audio_path])
           (audio_path_var w)).
Proof.
  rewrite transcribe_audio_run, bool_decide_eq_true_2 by done.
  by rewrite opens, service_raises.
Qed.

Lemma main_stages_service_raises target others :
  (filter (λ kv, kv.2 = ui_selectbox E language_options.*2) language_options).*1
  = target :: others →
  ∃ summary rest,
    (∀ w', (summarize_text E
              (VStr ("An error occurred during transcription: " +:+ exn_msg e))
              (create_prompt summary_length) w').1
           = Returned summary) ∧
    trace (main_stages E audio_path summary_length w).2
    = (trace w ++ [File_open audio_path "rb"; Groq_transcribe audio_path]) ++
      [ St_write (VStr "Summarizing text...");
        Genai_generate "gemini-pro"
          (create_prompt summary_length
           +:+ "An error occurred during transcription: " +:+ exn_msg e);
        St_write (VStr "Summary:");
        St_write summary;
        St_selectbox "Select language to translate the summary" language_options.*2;
        Translate summary target ] ++ rest.
Proof.
  intros Hcode. unfold main_stages.
  rewrite run_bind, transcribe_audio_service_raises. run.
  rewrite summarize_text_run. run. cbv zeta. rewrite Hcode. unfold first_item. run.
  rewrite translate_text_run. cbv beta iota.
  match goal with |- context [ trace (?m ?w0).2 ] =>
    assert (moves (extends (λ _, True)) m) as Hm
      by (open_program; repeat moves_step; done);
    destruct (Hm w0) as (rest & Htrace & _)
  end.
  eexists _, rest. split.
  - intros w'. by rewrite summarize_text_run.
  - rewrite Htrace. cbn [trace]. by rewrite <- !(assoc_L (++)).
Qed.
End FailedTranscription.

(** C1, as amended.  When the transcription service raises an exception
    with message m, [transcribe_audio] returns the string "An error
    occurred during transcription: " followed by m; [main] passes that
    string as the transcript to [summarize_text], whose request is the
    prompt followed by it, and passes what [summarize_text] returned for
    it, the summary, to the translation.  Nothing in between looks at
    either. *)
Theorem transcription_error_is_summarized E audio_path summary_length w e :
  audio_path ∈ fs w →
  open_error E audio_path = None →
  groq_transcribe E audio_path = Raised e →
  ui_selectbox E language_options.*2 ∈ language_options.*2 →
  let error := "An error occurred during transcription: " +:+ exn_msg e in
  let w1 :=
    State (fs w) (trace w ++ [File_open audio_path "rb"; Groq_transcribe audio_path])
          (audio_path_var w) in
  transcribe_audio E audio_path w = (Returned (VStr error), w1) ∧
  ∃ summary target rest,
    (∀ w', (summarize_text E (VStr error) (create_prompt summary_length) w').1
           = Returned summary) ∧
    (target, ui_selectbox E language_options.*2) ∈ language_options ∧
    trace (main_stages E audio_path summary_length w).2
    = trace w1 ++
      [ St_write (VStr "Summarizing text...");
        Genai_generate "gemini-pro" (create_prompt summary_length +:+ error);
        St_write (VStr "Summary:");
        St_write summary;
        St_selectbox "Select language to translate the summary" language_options.*2;
        Translate summary target ] ++ rest.
Proof.
  intros Hdisk Hopen Hraise (target & others & Hcode & Hlisted)%language_code_found.
  split; [by apply transcribe_audio_service_raises|].
  destruct (main_stages_service_raises E audio_path summary_length w e
              Hdisk Hopen Hraise target others Hcode) as (summary & rest & Hsum & Htrace).
  by exists summary, target, rest.
Qed.

Lemma transcription_error_is_summarized_witness :
  transcribe_audio Sample.env_transcription_down "/tmp/tmpq7up.mp3"
    (Sample.disk ["/tmp/tmpq7up.mp3"])
  = (Returned (VStr "An error occurred during transcription: Connection error."),
     State (list_to_set ["/tmp/tmpq7up.mp3"])
           [File_open "/tmp/tmpq7up.mp3" "rb"; Groq_transcribe "/tmp/tmpq7up.mp3"]
           None).
Proof.
  refine (proj1 (transcription_error_is_summarized Sample.env_transcription_down
                   "/tmp/tmpq7up.mp3" 250 (Sample.disk ["/tmp/tmpq7up.mp3"])
                   (Exn Exception "Connection error.") _ _ _ _)).
  - apply (bool_decide_unpack _). by vm_compute.
  - reflexivity.
  - reflexivity.
  - apply (bool_decide_unpack _). by vm_compute.
Defined.

(** C1, as stated, fails.  With a transcription service that raises
    "Connection error." and a summarizer that answers "a summary", a run of
    [main] sends the error string to the summarizer, but what it passes to
    the translation is "a summary": the error string itself is never an
    argument of the translation. *)
Lemma transcription_error_not_translated :
  let E := Sample.env_transcription_down in
  let error := "An error occurred during transcription: Connection error." in
  let events := trace (main E (Sample.disk [])).2 in
  groq_transcribe E "/tmp/tmpq7up.mp3" = Raised (Exn Exception "Connection error.") ∧
  Genai_generate "gemini-pro" (create_prompt 250 +:+ error) ∈ events ∧
  Translate (VStr "a summary") "en" ∈ events ∧
  ¬ ∃ target, Translate (VStr error) target ∈ events.
Proof.
  intros E error events. split_and!.
  - reflexivity.
  - apply (bool_decide_unpack _). by vm_compute.
  - apply (bool_decide_unpack _). by vm_compute.
  - intros [target H]. vm_compute in H.
    repeat (apply elem_of_cons in H as [H|H]; [discriminate H|]).
    by apply elem_of_nil in H.
Qed.

(** ** Cleanup *)

Section Cleanup.
Context (E : Env).

(** One guarded deletion (lines 189-192 and 195-198) of a file on
    disk. *)
Lemma run_remove_guarded path label w :
  path ∈ fs w →
  try_except (os_remove E path) PermissionError
    (λ e, st_write (label +:+ exn_msg e)) w
  = match remove_error E path with
    | None =>
        (Returned (),
         State (fs w ∖ {[path]}) (trace w ++ [Os_remove path]) (audio_path_var w))
    | Some e =>
        if issubclass (exn_class e) PermissionError then
          (Returned (),
           State (fs w)
                 (trace w ++ [Os_remove path; St_write (VStr (label +:+ exn_msg e))])
                 (audio_path_var w))
        else
          (Raised e, State (fs w) (trace w ++ [Os_remove path]) (audio_path_var w))
    end.
Proof.
  intros Hin. unfold try_except, os_remove. run.
  rewrite bool_decide_eq_true_2 by done.
  destruct (remove_error E path) as [e|]; run; [|done].
  destruct (issubclass (exn_class e) PermissionError); run; [|done].
  by rewrite <- (assoc_L (++)).
Qed.

(** The body of the [try] with its handler always returns. *)
Lemma main_process_handled video_path summary_length w :
  (try_except (main_process E video_path summary_length) Exception
     (λ e, st_write ("An error occurred during processing: " +:+ exn_msg e)) w).1
  = Returned ().
Proof.
  rewrite run_try_except_Exception.
  by destruct (main_process E video_path summary_length w) as [[[]|e] w1].
Qed.

Lemma main_cleanup_blocks video_path :
  main_cleanup E video_path
  = (guarded_remove E video_path "Failed to delete video file: " ;;
     audio_path ← get_audio_path;
     match audio_path with
     | Some path => guarded_remove E path "Failed to delete audio file: "
     | None => mret ()
     end).
Proof. reflexivity. Qed.

(** One deletion block: it leaves [audio_path] alone, removes nothing
    but [path], and only adds to the trace; when it returns, [path] is
    gone unless its deletion failed and was reported, and when it raises,
    the deletion of [path] failed with an exception that is no
    PermissionError. *)
Lemma guarded_remove_leaves path label w :
  PyStr.truthy path = true →
  let w' := (guarded_remove E path label w).2 in
  audio_path_var w' = audio_path_var w ∧
  fs w' ⊆ fs w ∧
  (∃ evs, trace w' = trace w ++ evs) ∧
  match (guarded_remove E path label w).1 with
  | Returned _ =>
      path ∈ fs w' → deletion_failed E path w' ∧ deletion_reported E path label w'
  | Raised e =>
      remove_error E path = Some e ∧
      issubclass (exn_class e) PermissionError = false ∧
      Os_remove path ∈ trace w'
  end.
Proof.
  intros Htruthy. unfold guarded_remove, deletion_failed, deletion_reported. run.
  rewrite Htruthy. cbn [andb].
  destruct (decide (path ∈ fs w)) as [Hin|Hout].
  - rewrite bool_decide_eq_true_2, run_remove_guarded by done.
    destruct (remove_error E path) as [e|] eqn:Hremove;
      [destruct (issubclass (exn_class e) PermissionError) eqn:Hperm|];
      cbn [fst snd fs trace audio_path_var].
    + split_and!; [done | done | by eexists |].
      intros _. split; exists e; (split; [done|]); apply elem_of_app; right;
        [by left | by right; left].
    + split_and!; [done | done | by eexists | done | done |].
      apply elem_of_app. right. by left.
    + split_and!; [done | apply subseteq_difference_l; done | by eexists |].
      intros [_ Hnot]%elem_of_difference. destruct Hnot. by apply elem_of_singleton.
  - rewrite bool_decide_eq_false_2 by done. run.
    split_and!; [done | done | by exists []; rewrite app_nil_r | done].
Qed.

Lemma deletion_failed_later path w w' :
  (∃ evs, trace w' = trace w ++ evs) →
  deletion_failed E path w → deletion_failed E path w'.
Proof.
  intros [evs Htrace] (e & Hremove & Hin). exists e. split; [done|].
  rewrite Htrace. apply elem_of_app. by left.
Qed.

(** What the [finally] block leaves, from any state. *)
Lemma main_cleanup_leaves video_path w :
  PyStr.truthy video_path = true →
  let r := (main_cleanup E video_path w).1 in
  let w' := (main_cleanup E video_path w).2 in
  (video_path ∈ fs w' → deletion_failed E video_path w') ∧
  (∀ audio_path,
     audio_path_var w' = Some audio_path → PyStr.truthy audio_path = true →
     audio_path ∈ fs w' →
     deletion_failed E audio_path w' ∨
     ∃ e, remove_error E video_path = Some e ∧
          issubclass (exn_class e) PermissionError = false ∧
          r = Raised e).
Proof.
  intros Htruthy. rewrite main_cleanup_blocks, run_bind.
  pose proof (guarded_remove_leaves video_path "Failed to delete video file: " w Htruthy)
    as (Hvar1 & Hfs1 & Htrace1 & Hout1).
  destruct (guarded_remove E video_path _ w) as [[[]|e] w1];
    cbn [fst snd] in *.
  - assert (video_path ∈ fs w1 → deletion_failed E video_path w1) as Hfailed1
      by (intros ?; by apply Hout1).
    run. destruct (audio_path_var w1) as [audio_path|] eqn:Hvar;
      [|run; split; [done | intros ? Heq; by rewrite Hvar in Heq]].
    destruct (PyStr.truthy audio_path) eqn:Haudio.
    + pose proof (guarded_remove_leaves audio_path "Failed to delete audio file: " w1 Haudio)
        as (Hvar2 & Hfs2 & Htrace2 & Hout2).
      destruct (guarded_remove E audio_path _ w1) as [[[]|e] w2];
        cbn [fst snd] in *.
      * assert (audio_path ∈ fs w2 → deletion_failed E audio_path w2) as Hfailed2
          by (intros ?; by apply Hout2).
        split.
        -- intros Hleft. apply (deletion_failed_later _ w1); [done|]. apply Hfailed1. by apply Hfs2.
        -- intros ? Heq _ Hleft. left. rewrite Hvar2, Hvar in Heq. simplify_eq.
           by apply Hfailed2.
      * split.
        -- intros Hleft. apply (deletion_failed_later _ w1); [done|]. apply Hfailed1. by apply Hfs2.
        -- intros ? Heq _ Hleft. left. rewrite Hvar2, Hvar in Heq. simplify_eq.
           destruct Hout2 as (? & ? & ?). by exists e.
    + unfold guarded_remove. run. rewrite Haudio. cbn [andb fst snd]. split; [done|].
      intros ? Heq Htr. simpl in Heq. congruence.
  - destruct Hout1 as (Hremove & Hperm & Hin). split.
    + intros _. by exists e.
    + intros ? _ _ _. right. by exists e.
Qed.

(** A returning [extract_audio] fixes what [audio_path] holds when the
    [try] statement is left. *)
Lemma main_guarded_audio_path video_path summary_length w audio_path w1 :
  extract_audio E video_path w = (Returned audio_path, w1) →
  audio_path_var (main_guarded E video_path summary_length w).2 = Some audio_path ∧
  PyStr.truthy audio_path = true.
Proof.
  intros Hextract.
  pose proof (extract_audio_returned E _ _ _ _ Hextract) as (-> & _ & _).
  split; [|apply temp_audio_path_truthy].
  unfold main_guarded. rewrite run_try_finally.
  match goal with |- context [ main_cleanup E video_path ?w0 ] =>
    pose proof (main_cleanup_same_audio_path E video_path w0) as Hcleanup;
    destruct (main_cleanup E video_path w0) as [[[]|e] w3] eqn:Hc
  end; cbn [fst snd] in *; rewrite Hcleanup;
    rewrite run_try_except_Exception; unfold main_process;
    rewrite run_bind, Hextract; run; rewrite temp_audio_path_truthy;
    match goal with |- context [ main_stages E ?ap ?n ?w0 ] =>
      pose proof (main_stages_same_audio_path E ap n w0) as Hstages;
      destruct (main_stages E ap n w0) as [[[]|e'] w2]
    end; cbn [fst snd] in *; run; exact Hstages.
Qed.
End Cleanup.

(** C4, as amended.  When [main] leaves its [try] statement, on the path
    where the stages succeeded and on every path where one raised, the
    video file does not exist unless its deletion raised an error, and
    the audio file that [extract_audio] returned does not exist unless
    its own deletion raised an error or the deletion of the video raised
    an error that is no PermissionError, which leaves [main] before the
    audio deletion is tried. *)
Theorem cleanup_deletes_artifacts E video_path summary_length w :
  PyStr.truthy video_path = true →
  let r := (main_guarded E video_path summary_length w).1 in
  let w' := (main_guarded E video_path summary_length w).2 in
  (video_path ∈ fs w' → deletion_failed E video_path w') ∧
  (∀ audio_path,
     audio_path_var w' = Some audio_path → PyStr.truthy audio_path = true →
     audio_path ∈ fs w' →
     deletion_failed E audio_path w' ∨
     ∃ e, remove_error E video_path = Some e ∧
          issubclass (exn_class e) PermissionError = false ∧
          r = Raised e) ∧
  (∀ audio_path w1,
     extract_audio E video_path w = (Returned audio_path, w1) →
     audio_path_var w' = Some audio_path ∧ PyStr.truthy audio_path = true).
Proof.
  intros Htruthy r w'.
  assert (∀ audio_path w1,
            extract_audio E video_path w = (Returned audio_path, w1) →
            audio_path_var w' = Some audio_path ∧ PyStr.truthy audio_path = true)
    as Hlink by (intros ??; apply main_guarded_audio_path).
  revert Hlink. subst r w'. unfold main_guarded. rewrite run_try_finally.
  match goal with |- context [ main_cleanup E video_path ?w0 ] =>
    pose proof (main_cleanup_leaves E video_path w0 Htruthy) as [Hvideo Haudio];
    destruct (main_cleanup E video_path w0) as [[[]|e] w2]
  end; cbn [fst snd] in *; intros Hlink; split_and!; try done.
  intros audio_path Hvar Htr Hleft.
  destruct (Haudio audio_path Hvar Htr Hleft) as [?|(e & _ & _ & [=])]. by left.
Qed.

Lemma cleanup_deletes_artifacts_witness :
  let E := Sample.env_remove_fails "/tmp/tmpq7up.mp4"
             (Exn PermissionError "[WinError 32] The process cannot access the file") in
  let w' := (main_guarded E "/tmp/tmpq7up.mp4" 250 (Sample.disk ["/tmp/tmpq7up.mp4"])).2 in
  PyStr.truthy "/tmp/tmpq7up.mp4" = true ∧
  ("/tmp/tmpq7up.mp4" ∈ fs w' → deletion_failed E "/tmp/tmpq7up.mp4" w').
Proof.
  intros E w'. split; [reflexivity|].
  exact (proj1 (cleanup_deletes_artifacts E "/tmp/tmpq7up.mp4" 250
                  (Sample.disk ["/tmp/tmpq7up.mp4"]) eq_refl)).
Defined.

(** C4, as stated, fails.  When the deletion of the video file raises an
    OSError that is no PermissionError, the error leaves the [finally]
    block at once: the audio file is still on disk although no deletion
    of it was tried, let alone failed. *)
Lemma audio_left_behind :
  let E := Sample.env_remove_fails "/tmp/tmpq7up.mp4"
             (Exn OSError "[Errno 5] Input/output error: '/tmp/tmpq7up.mp4'") in
  let w' := (main E (Sample.disk [])).2 in
  audio_path_var w' = Some "/tmp/tmpq7up.mp3" ∧
  "/tmp/tmpq7up.mp3" ∈ fs w' ∧
  ¬ deletion_failed E "/tmp/tmpq7up.mp3" w' ∧
  ¬ artifacts_deleted E "/tmp/tmpq7up.mp4" w'.
Proof.
  intros E w'.
  assert (audio_path_var w' = Some "/tmp/tmpq7up.mp3") as Hvar by (by vm_compute).
  assert ("/tmp/tmpq7up.mp3" ∈ fs w') as Hleft
    by (apply (bool_decide_unpack _); by vm_compute).
  assert (¬ deletion_failed E "/tmp/tmpq7up.mp3" w') as Hnot
    by (by intros (e & [=] & _)).
  split_and!; [done..|]. intros [_ Haudio]. by apply Hnot, Haudio.
Qed.

(** * Further properties of the stages *)

(** ** Speech synthesis, summarization, transcription *)

Lemma text_to_speech_run E text lang w :
  text_to_speech E text lang w =
  match gtts_new_error E text lang, tmp_speech_error E with
  | Some e, _ | None, Some e =>
      (Returned (VStr ("An error occurred during text-to-speech: " +:+ exn_msg e)),
       State (fs w) (trace w ++ [Gtts_new text lang]) (audio_path_var w))
  | None, None =>
      (Returned (VStr match gtts_save_error E text lang (tmp_speech_stem E +:+ ".mp3") with
                      | Some e => "An error occurred during text-to-speech: " +:+ exn_msg e
                      | None => tmp_speech_stem E +:+ ".mp3"
                      end),
       State ({[tmp_speech_stem E +:+ ".mp3"]} ∪ fs w)
             (trace w ++ [Gtts_new text lang; Gtts_save (tmp_speech_stem E +:+ ".mp3")])
             (audio_path_var w))
  end.
Proof.
  unfold text_to_speech, named_temporary_file. rewrite run_try_except_Exception. run.
  destruct (gtts_new_error E text lang); run; [done|].
  destruct (tmp_speech_error E); run; [done|].
  rewrite <- (assoc_L (++)).
  by destruct (gtts_save_error E text lang _).
Qed.

(** X1.  [text_to_speech] never raises and returns a string.  When the
    gTTS object cannot be made, or the temporary file cannot, no file is
    created and the error message is returned.  Once the temporary ".mp3"
    file is made it stays on disk, also when saving the speech into it
    failed, in which case the error message is returned and not the
    path. *)
Theorem text_to_speech_masks_failures E text lang w :
  ∃ s w',
    text_to_speech E text lang w = (Returned (VStr s), w') ∧
    match gtts_new_error E text lang, tmp_speech_error E with
    | Some e, _ | None, Some e =>
        s = "An error occurred during text-to-speech: " +:+ exn_msg e ∧ fs w' = fs w
    | None, None =>
        tmp_speech_stem E +:+ ".mp3" ∈ fs w' ∧
        match gtts_save_error E text lang (tmp_speech_stem E +:+ ".mp3") with
        | Some e => s = "An error occurred during text-to-speech: " +:+ exn_msg e
        | None => s = tmp_speech_stem E +:+ ".mp3"
        end
    end.
Proof.
  rewrite text_to_speech_run.
  destruct (gtts_new_error E text lang) as [e|]; [|destruct (tmp_speech_error E) as [e|]];
    eexists _, _; (split; [done|]); [done | done |].
  split; [apply elem_of_union; left; by apply elem_of_singleton|].
  by destruct (gtts_save_error E text lang _).
Qed.


(** X3.  [transcribe_audio] leaves the disk and [audio_path] alone.  It
    calls the transcription service exactly when the audio file is on
    disk and opens; otherwise it only tries to open the file. *)
Theorem transcribe_audio_calls_service E audio_path w :
  let w' := (transcribe_audio E audio_path w).2 in
  fs w' = fs w ∧
  audio_path_var w' = audio_path_var w ∧
  ((audio_path ∈ fs w ∧ open_error E audio_path = None ∧
    trace w' = trace w ++ [File_open audio_path "rb"; Groq_transcribe audio_path]) ∨
   ((audio_path ∉ fs w ∨ ∃ e, open_error E audio_path = Some e) ∧
    trace w' = trace w ++ [File_open audio_path "rb"])).
Proof.
  intros w'. subst w'. rewrite transcribe_audio_run.
  destruct (decide (audio_path ∈ fs w)) as [Hin|Hout].
  - rewrite bool_decide_eq_true_2 by done.
    destruct (open_error E audio_path) as [e|] eqn:Hopen; cbn [fst snd fs trace audio_path_var].
    + split_and!; [done..|]. right. split; [right; by exists e | done].
    + split_and!; [done..|]. by left.
  - rewrite bool_decide_eq_false_2 by done. cbn [fst snd fs trace audio_path_var].
    split_and!; [done..|]. right. split; [by left | done].
Qed.

(** ** Acquisition *)

(** X4.  After a successful [extract_info], the downloaded files are on
    disk and [download_video] returns the "filepath" entry of the info
    dict when it has one, and the prepared file name otherwise.  The
    file name is prepared in either case, so an exception of
    [prepare_filename] is raised even when "filepath" is there. *)
Theorem download_video_path E url w info_dict :
  ydl_extract_info E (ydl_opts E) url = Returned info_dict →
  (download_video E url w).1
  = match ydl_prepare_filename E info_dict with
    | Returned prepared => Returned (default prepared (info_dict !! "filepath"))
    | Raised e => Raised e
    end ∧
  fs (download_video E url w).2 = ydl_downloaded E url ∪ fs w.
Proof.
  intros Hinfo. unfold download_video, create_files. run. rewrite Hinfo. run.
  by destruct (ydl_prepare_filename E info_dict).
Qed.

Lemma download_video_path_witness :
  let E := Scenario.env None "https://example.org/v"  "English"
             {["filepath" := "/tmp/tmpq7dl.f251.webm"]} true Scenario.never in
  (download_video E "https://example.org/v" (Sample.disk [])).1
  = Returned "/tmp/tmpq7dl.f251.webm".
Proof.
  intros E.
  exact (proj1 (download_video_path E "https://example.org/v" (Sample.disk [])
                  {["filepath" := "/tmp/tmpq7dl.f251.webm"]} eq_refl)).
Defined.

(** X5.  With no uploaded file and an empty URL, [main] shows its four
    widgets and returns: no call to the outside, nothing on disk changed,
    nothing deleted. *)
Theorem main_without_input E w :
  ui_uploaded_file E = None →
  ui_video_url E = "" →
  main E w
  = (Returned (),
     State (fs w)
           (trace w ++
            [ St_title "Video Summarizer and Translator";
              St_slider "Select length of the summary (in words):" 50 500 250 10;
              St_file_uploader "Upload a video file" ["mp4"; "mov"; "avi"];
              St_text_input "Or enter a video URL" ])
           None).
Proof.
  intros Hfile Hurl. unfold main, main_acquire. rewrite Hfile, Hurl.
  cbv zeta. run. by rewrite <- !(assoc_L (++)).
Qed.

Lemma main_without_input_witness :
  main (Scenario.env None "" "English" ∅ true Scenario.never) (Sample.disk ["/home/u/a.txt"])
  = (Returned (),
     State (list_to_set ["/home/u/a.txt"])
           [ St_title "Video Summarizer and Translator";
             St_slider "Select length of the summary (in words):" 50 500 250 10;
             St_file_uploader "Upload a video file" ["mp4"; "mov"; "avi"];
             St_text_input "Or enter a video URL" ]
           None).
Proof.
  exact (main_without_input (Scenario.env None "" "English" ∅ true Scenario.never)
           (Sample.disk ["/home/u/a.txt"]) eq_refl eq_refl).
Defined.

(** X6.  When the download of a URL fails in [extract_info], [main]
    writes the download error and returns: no stage is run and nothing is
    deleted, so what the failed download has put on disk stays there. *)
Theorem main_download_fails E w e :
  ui_uploaded_file E = None →
  PyStr.truthy (ui_video_url E) = true →
  ydl_extract_info E (ydl_opts E) (ui_video_url E) = Raised e →
  main E w
  = (Returned (),
     State (ydl_downloaded E (ui_video_url E) ∪ fs w)
           (trace w ++
            [ St_title "Video Summarizer and Translator";
              St_slider "Select length of the summary (in words):" 50 500 250 10;
              St_file_uploader "Upload a video file" ["mp4"; "mov"; "avi"];
              St_text_input "Or enter a video URL";
              St_write (VStr "Downloading video...");
              Ydl_open (ydl_opts E);
              Ydl_extract_info (ui_video_url E) true;
              St_write (VStr ("An error occurred during video download: " +:+ exn_msg e)) ])
           None).
Proof.
  intros Hfile Hurl Hraise. unfold main, main_acquire. rewrite Hfile, Hurl.
  cbv zeta. run. rewrite run_try_except_Exception. unfold download_video, create_files.
  run. rewrite Hraise. run. by rewrite <- !(assoc_L (++)).
Qed.

Lemma main_download_fails_witness :
  let url := "https://example.org/v" in
  let E := Scenario.env None url "English" ∅ true
             (Scenario.only (Ydl_extract_info url true)
                (Exn Exception "ERROR: Postprocessing: Conversion failed!")) in
  (main E (Sample.disk [])).1 = Returned () ∧
  fs (main E (Sample.disk [])).2 = {["/tmp/tmpq7dl.webm"]} ∪ fs (Sample.disk []).
Proof.
  intros url E.
  pose proof (main_download_fails E (Sample.disk [])
                (Exn Exception "ERROR: Postprocessing: Conversion failed!")
                eq_refl eq_refl eq_refl) as Hrun.
  split; [exact (f_equal fst Hrun) | exact (f_equal (λ r, fs r.2) Hrun)].
Defined.

(** When the write is the step that fails, the temporary file was made
    and opened. *)
Lemma upload_write_fails_after E e :
  upload_write_error E = Some e →
  upload_error E Upload_tempfile = None ∧ upload_error E Upload_open = None.
Proof.
  unfold upload_write_error, upload_error.
  destruct (upload_failure E) as [[[] e']|]; by simpl.
Qed.

(** X7.  When writing the uploaded bytes fails, the exception leaves
    [main]: the write is outside the [try].  The temporary video file
    made just before stays on disk and nothing tries to delete it. *)
Theorem main_upload_write_fails E w data e :
  ui_uploaded_file E = Some data →
  upload_write_error E = Some e →
  main E w
  = (Raised e,
     State ({[tmp_upload_stem E +:+ ".mp4"]} ∪ fs w)
           (trace w ++
            [ St_title "Video Summarizer and Translator";
              St_slider "Select length of the summary (in words):" 50 500 250 10;
              St_file_uploader "Upload a video file" ["mp4"; "mov"; "avi"];
              St_text_input "Or enter a video URL";
              File_open (tmp_upload_stem E +:+ ".mp4") "wb";
              File_write (tmp_upload_stem E +:+ ".mp4") ])
           None).
Proof.
  intros Hfile Hwrite.
  destruct (upload_write_fails_after E e Hwrite) as [Htemp Hopen].
  unfold main, main_acquire, named_temporary_file.
  rewrite Hfile, Hwrite, Htemp, Hopen. cbv zeta. run. by rewrite <- !(assoc_L (++)).
Qed.

Lemma main_upload_write_fails_witness :
  let e := Exn OSError "[Errno 28] No space left on device" in
  let E := Scenario.env (Some "bytes") "" "English" ∅ true
             (Scenario.only (File_write "/tmp/tmpq7up.mp4") e) in
  (main E (Sample.disk [])).1 = Raised e.
Proof.
  intros e E.
  exact (f_equal fst (main_upload_write_fails E (Sample.disk []) "bytes" e eq_refl eq_refl)).
Defined.

(** X8.  With an uploaded file, [main] never calls the downloader,
    whatever the URL field holds. *)
Theorem main_upload_skips_download E w data :
  ui_uploaded_file E = Some data →
  ∃ evs, trace (main E w).2 = trace w ++ evs ∧ Forall (λ ev, ¬ downloader_call ev) evs.
Proof.
  intros Hfile.
  assert (moves (extends (λ ev, ¬ downloader_call ev)) (main E)) as Hmoves.
  { open_program. rewrite Hfile. repeat moves_step; by intros []. }
  apply Hmoves.
Qed.

Lemma main_upload_skips_download_witness :
  let E := Scenario.env (Some "bytes") "https://example.org/v" "English" ∅ true
             Scenario.never in
  ∃ evs, trace (main E (Sample.disk [])).2 = trace (Sample.disk []) ++ evs ∧
         Forall (λ ev, ¬ downloader_call ev) evs.
Proof.
  intros E. exact (main_upload_skips_download E (Sample.disk []) "bytes" eq_refl).
Defined.

(** ** Audio extraction *)

Lemma occurs_split_prefix c old a b rest :
  occurs c old = false →
  a +:+ String c b = old +:+ rest →
  ∃ pre, a = old +:+ pre.
Proof.
  revert a. induction old as [|x old IH]; intros a Hfree Heq.
  - by exists a.
  - simpl in Hfree. destruct (Ascii.eqb c x) eqn:Hcx; [done|].
    destruct a as [|y a].
    + rewrite str_app_nil_l, str_app_cons in Heq. injection Heq as -> _.
      by rewrite Ascii.eqb_refl in Hcx.
    + rewrite !str_app_cons in Heq. injection Heq as -> Heq.
      destruct (IH a Hfree Heq) as [pre ->]. by exists pre.
Qed.

(** When the first character of [old] does not come back inside it, no
    occurrence of [old] reaches into another one, so the occurrence at
    the end of the string is replaced: the result ends with [new]. *)
Lemma replace_scan_keeps_suffix c old new n :
  occurs c old = false →
  ∀ pre, String.length pre = n →
    ∃ pre', PyStr.replace_scan (String c old) new 0 (pre +:+ String c old)
            = pre' +:+ new.
Proof.
  intros Hfree. induction n as [n IH] using lt_wf_ind. intros pre Hlen.
  destruct pre as [|d pre].
  - exists "". rewrite !str_app_nil_l.
    rewrite <- (str_app_nil_r (String c old)) at 2.
    by rewrite replace_scan_match, str_app_nil_r.
  - rewrite str_app_cons.
    destruct (String.prefix (String c old) (String d (pre +:+ String c old))) eqn:Hp.
    + apply prefix_split in Hp as [rest Hrest].
      rewrite str_app_cons in Hrest. injection Hrest as -> Hrest.
      destruct (occurs_split_prefix c old pre old rest Hfree Hrest) as [pre1 ->].
      rewrite str_app_assoc in Hrest. apply (inj (String.app old)) in Hrest as <-.
      replace (String c ((old +:+ pre1) +:+ String c old))
        with (String c old +:+ (pre1 +:+ String c old))
        by (by rewrite str_app_cons, str_app_assoc).
      rewrite replace_scan_match.
      destruct (IH (String.length pre1)) with (pre := pre1) as [pre' ->]; [|done|].
      * simpl in Hlen. rewrite str_app_length in Hlen. lia.
      * exists (new +:+ pre'). by rewrite str_app_assoc.
    + rewrite replace_scan_copy by done.
      destruct (IH (String.length pre)) with (pre := pre) as [pre' ->]; [|done|].
      * simpl in Hlen. lia.
      * by exists (String d pre').
Qed.

Lemma temp_audio_path_ends_mp3 video_path :
  PyStr.endswith (temp_audio_path video_path) ".mp3" = true.
Proof.
  unfold temp_audio_path.
  destruct (PyStr.endswith video_path ".webm") eqn:Hwebm;
    [|destruct (PyStr.endswith video_path ".mp4") eqn:Hmp4].
  - apply endswith_split in Hwebm as [pre ->]. unfold PyStr.replace.
    destruct (replace_scan_keeps_suffix "." "webm" ".mp3" _ eq_refl pre eq_refl)
      as [pre' ->].
    apply endswith_app.
  - apply endswith_split in Hmp4 as [pre ->]. unfold PyStr.replace.
    destruct (replace_scan_keeps_suffix "." "mp4" ".mp3" _ eq_refl pre eq_refl)
      as [pre' ->].
    apply endswith_app.
  - apply endswith_app.
Qed.

(** X9.  The path [extract_audio] returns always ends in ".mp3", for
    every video path and in every branch of the extension policy, also
    when the replacement rewrote more than the suffix.  The video file
    was on disk when [extract_audio] was called and still is. *)
Theorem extract_audio_returns_mp3 E video_path w audio_path w' :
  extract_audio E video_path w = (Returned audio_path, w') →
  PyStr.endswith audio_path ".mp3" = true ∧
  video_path ∈ fs w ∧
  video_path ∈ fs w'.
Proof.
  intros (-> & Hvideo & ->)%extract_audio_returned. cbn [fs].
  split_and!; [apply temp_audio_path_ends_mp3 | done |].
  destruct (clip_write_leaves E video_path _); [|done].
  apply elem_of_union. by right.
Qed.

Lemma extract_audio_returns_mp3_witness :
  let E := Scenario.env None "" "English" ∅ true Scenario.never in
  let w := Sample.disk ["/srv/cache.webm/tmpq7dl.webm"] in
  (extract_audio E "/srv/cache.webm/tmpq7dl.webm" w).1
  = Returned "/srv/cache.mp3/tmpq7dl.mp3" ∧
  PyStr.endswith "/srv/cache.mp3/tmpq7dl.mp3" ".mp3" = true.
Proof.
  intros E w. split; [by vm_compute|].
  refine (proj1 (extract_audio_returns_mp3 E "/srv/cache.webm/tmpq7dl.webm" w
                   "/srv/cache.mp3/tmpq7dl.mp3"
                   (extract_audio E "/srv/cache.webm/tmpq7dl.webm" w).2 _)).
  vm_compute. reflexivity.
Defined.

(** X10.  When [extract_audio] raises, whatever the reason (no video
    file, the clip does not open, it has no audio track, writing the
    audio fails), it has closed neither the clip nor the audio track.  It
    has removed no file, the only file it can have left behind is one at
    the audio path, and [audio_path] is as it was. *)
Theorem extract_audio_raises_unclosed E video_path w e w' :
  extract_audio E video_path w = (Raised e, w') →
  fs w ⊆ fs w' ∧
  fs w' ⊆ {[temp_audio_path video_path]} ∪ fs w ∧
  audio_path_var w' = audio_path_var w ∧
  ∃ evs, trace w' = trace w ++ evs ∧ (Clip_close ∉ evs) ∧ (Audio_close ∉ evs).
Proof.
  unfold extract_audio, write_audiofile. run.
  destruct (bool_decide (video_path ∈ fs w)); run.
  - destruct (clip_open_error E video_path); run.
    + intros [= <- <-]. cbn [fs audio_path_var trace].
      split_and!; [done | apply union_subseteq_r | done |].
      eexists. split; [done|].
      split; intros [[=]|[]%elem_of_nil]%elem_of_cons.
    + destruct (clip_has_audio E video_path); run.
      * destruct (clip_write_leaves E video_path _); run;
          (destruct (clip_write_error E video_path _); run; [|done]);
          intros [= <- <-]; cbn [fs audio_path_var trace];
          (split_and!;
           [ first [done | apply union_subseteq_r]
           | first [done | apply union_subseteq_r]
           | done
           | eexists; split; [by rewrite <- (assoc_L (++))|];
             split; intros [[=]|[[=]|[]%elem_of_nil]%elem_of_cons]%elem_of_cons ]).
      * intros [= <- <-]. cbn [fs audio_path_var trace].
        split_and!; [done | apply union_subseteq_r | done |].
        eexists. split; [done|].
        split; intros [[=]|[]%elem_of_nil]%elem_of_cons.
  - intros [= <- <-]. split_and!; [done | apply union_subseteq_r | done |].
    exists []. rewrite app_nil_r.
    split; [done|]. split; by intros []%elem_of_nil.
Qed.

Lemma extract_audio_raises_unclosed_witness :
  let e := Exn OSError "[Errno 32] Broken pipe" in
  let E := Scenario.env None "" "English" ∅ true
             (Scenario.only (Clip_write_audiofile "/tmp/tmpq7up.mp3") e) in
  let w := Sample.disk ["/tmp/tmpq7up.mp4"] in
  (extract_audio E "/tmp/tmpq7up.mp4" w).1 = Raised e ∧
  fs (extract_audio E "/tmp/tmpq7up.mp4" w).2
  ⊆ {[temp_audio_path "/tmp/tmpq7up.mp4"]} ∪ fs w.
Proof.
  intros e E w. split; [by vm_compute|].
  refine (proj1 (proj2 (extract_audio_raises_unclosed E "/tmp/tmpq7up.mp4" w e
                   (extract_audio E "/tmp/tmpq7up.mp4" w).2 _))).
  vm_compute. reflexivity.
Defined.

(** ** The stages in sequence *)

(** A name of the table has one code: the comprehension of line 167
    gives exactly the code the table pairs it with. *)
Lemma language_code_unique target selected :
  (target, selected) ∈ language_options →
  (filter (λ kv, kv.2 = selected) language_options).*1 = [target].
Proof.
  unfold language_options. intros Hin.
  repeat (apply elem_of_cons in Hin as [[= -> ->]|Hin]; [by vm_compute|]).
  by apply elem_of_nil in Hin.
Qed.

(** X11.  The stages hand their results on unchanged: the request to the
    summarizer is the prompt followed by what [transcribe_audio] returned,
    the translation is asked for what [summarize_text] returned, and the
    speech synthesis for what [translate_text] returned, both with the
    code that the table pairs with the selected language. *)
Theorem main_stages_thread_results E audio_path summary_length w target :
  (target, ui_selectbox E language_options.*2) ∈ language_options →
  ∃ transcript summary translated w1 rest,
    transcribe_audio E audio_path w = (Returned (VStr transcript), w1) ∧
    (∀ w', (summarize_text E (VStr transcript) (create_prompt summary_length) w').1
           = Returned summary) ∧
    (∀ w', (translate_text E summary target w').1 = Returned translated) ∧
    trace (main_stages E audio_path summary_length w).2
    = trace w1 ++
      [ St_write (VStr "Summarizing text...");
        Genai_generate "gemini-pro" (create_prompt summary_length +:+ transcript);
        St_write (VStr "Summary:");
        St_write summary;
        St_selectbox "Select language to translate the summary" language_options.*2;
        Translate summary target;
        St_write (VStr ("Translated Summary ("
                        +:+ ui_selectbox E language_options.*2 +:+ "):"));
        St_write translated;
        St_write (VStr "Generating audio from summary...");
        Gtts_new translated target ] ++ rest.
Proof.
  intros Hcode%language_code_unique.
  assert (∃ transcript w1,
            transcribe_audio E audio_path w = (Returned (VStr transcript), w1))
    as (transcript & w1 & Htranscribe).
  { rewrite transcribe_audio_run.
    destruct (bool_decide _); [destruct (open_error E audio_path)|]; eauto. }
  unfold main_stages. rewrite run_bind, Htranscribe. run.
  rewrite summarize_text_run. run. cbv zeta. rewrite Hcode. unfold first_item. run.
  rewrite translate_text_run. run. rewrite text_to_speech_run.
  destruct (gtts_new_error E _ target); [|destruct (tmp_speech_error E)];
    run; destruct (bool_decide _); run;
    (eexists transcript, _, _, w1, _; split_and!;
     [ done
     | intros w'; by rewrite summarize_text_run
     | intros w'; by rewrite translate_text_run
     | rewrite <- !(assoc_L (++)); cbn [app]; reflexivity ]).
Qed.

Lemma main_stages_thread_results_witness :
  let E := Scenario.env (Some "bytes") "" "Hindi" ∅ true Scenario.never in
  ∃ transcript summary translated w1 rest,
    transcribe_audio E "/tmp/tmpq7up.mp3" (Sample.disk ["/tmp/tmpq7up.mp3"])
    = (Returned (VStr transcript), w1) ∧
    (∀ w', (summarize_text E (VStr transcript) (create_prompt 50) w').1
           = Returned summary) ∧
    (∀ w', (translate_text E summary "hi" w').1 = Returned translated) ∧
    trace (main_stages E "/tmp/tmpq7up.mp3" 50 (Sample.disk ["/tmp/tmpq7up.mp3"])).2
    = trace w1 ++
      [ St_write (VStr "Summarizing text...");
        Genai_generate "gemini-pro" (create_prompt 50 +:+ transcript);
        St_write (VStr "Summary:");
        St_write summary;
        St_selectbox "Select language to translate the summary" language_options.*2;
        Translate summary "hi";
        St_write (VStr ("Translated Summary ("
                        +:+ ui_selectbox E language_options.*2 +:+ "):"));
        St_write translated;
        St_write (VStr "Generating audio from summary...");
        Gtts_new translated "hi" ] ++ rest.
Proof.
  intros E.
  refine (main_stages_thread_results E "/tmp/tmpq7up.mp3" 50
            (Sample.disk ["/tmp/tmpq7up.mp3"]) "hi" _).
  apply (bool_decide_unpack _). by vm_compute.
Defined.

(** The stages after the transcription, for a language of the table. *)
Lemma main_stages_listed_run E audio_path summary_length w :
  ui_selectbox E language_options.*2 ∈ language_options.*2 →
  (main_stages E audio_path summary_length w).1 = Returned () ∧
  fs w ⊆ fs (main_stages E audio_path summary_length w).2 ∧
  fs (main_stages E audio_path summary_length w).2
    ⊆ {[tmp_speech_stem E +:+ ".mp3"]} ∪ fs w.
Proof.
  intros (target & others & Hcode & _)%language_code_found.
  assert (∃ transcript w1,
            transcribe_audio E audio_path w = (Returned (VStr transcript), w1) ∧
            fs w1 = fs w)
    as (transcript & w1 & Htranscribe & Hfs).
  { rewrite transcribe_audio_run.
    destruct (bool_decide _); [destruct (open_error E audio_path)|]; eauto. }
  unfold main_stages. rewrite run_bind, Htranscribe. run.
  rewrite summarize_text_run. run. cbv zeta. rewrite Hcode. unfold first_item. run.
  rewrite translate_text_run. run. rewrite text_to_speech_run.
  destruct (gtts_new_error E _ target); [|destruct (tmp_speech_error E)];
    run; destruct (bool_decide _); run;
    rewrite Hfs; (split_and!; [done | |]); set_solver.
Qed.

(** X12.  For a language of the table, the stages after the audio
    extraction never raise, whatever the transcription, summarization,
    translation and speech services do: every failure of theirs has
    become text.  They delete no file and create at most the temporary
    speech file. *)
Theorem main_stages_never_raise E audio_path summary_length w :
  ui_selectbox E language_options.*2 ∈ language_options.*2 →
  ∃ w',
    main_stages E audio_path summary_length w = (Returned (), w') ∧
    fs w ⊆ fs w' ∧
    fs w' ⊆ {[tmp_speech_stem E +:+ ".mp3"]} ∪ fs w.
Proof.
  intros Hlisted.
  destruct (main_stages_listed_run E audio_path summary_length w Hlisted)
    as (Hreturn & Hkeeps & Hadds).
  destruct (main_stages E audio_path summary_length w) as [r w'].
  cbn [fst snd] in *. subst r. by exists w'.
Qed.

Lemma main_stages_never_raise_witness :
  let E := Scenario.env (Some "bytes") "" "Tamil" ∅ true
             (λ ev, match ev with
                    | Groq_transcribe _ => Some (Exn Exception "Connection error.")
                    | Genai_generate _ _ => Some (Exn ValueError "quota exceeded")
                    | Translate _ _ => Some (Exn Exception "No service has returned a valid result")
                    | Gtts_new _ _ => Some (Exn ValueError "Language not supported: ta")
                    | _ => None
                    end) in
  ∃ w',
    main_stages E "/tmp/tmpq7up.mp3" 250 (Sample.disk ["/tmp/tmpq7up.mp3"])
    = (Returned (), w') ∧
    fs (Sample.disk ["/tmp/tmpq7up.mp3"]) ⊆ fs w' ∧
    fs w' ⊆ {[tmp_speech_stem E +:+ ".mp3"]} ∪ fs (Sample.disk ["/tmp/tmpq7up.mp3"]).
Proof.
  intros E.
  refine (main_stages_never_raise E "/tmp/tmpq7up.mp3" 250
            (Sample.disk ["/tmp/tmpq7up.mp3"]) _).
  apply (bool_decide_unpack _). by vm_compute.
Defined.

Lemma transcribe_audio_returns E audio_path w :
  ∃ transcript w1 evs,
    transcribe_audio E audio_path w = (Returned (VStr transcript), w1) ∧
    fs w1 = fs w ∧
    trace w1 = trace w ++ evs ∧
    Forall (λ ev, ev = File_open audio_path "rb" ∨ ev = Groq_transcribe audio_path) evs.
Proof.
  rewrite transcribe_audio_run.
  destruct (bool_decide (audio_path ∈ fs w)); [destruct (open_error E audio_path)|];
    eexists _, _, _; (split_and!; [done | done | done |]);
    repeat (apply Forall_cons; split; [by (left + right)|]); by apply Forall_nil.
Qed.

Lemma language_code_missing (selected : string) :
  selected ∉ language_options.*2 →
  (filter (λ kv, kv.2 = selected) language_options).*1 = [].
Proof.
  intros Hmissing.
  destruct (filter (λ kv, kv.2 = selected) language_options) as [|[code name] others] eqn:Hf;
    [done|].
  assert ((code, name) ∈ filter (λ kv, kv.2 = selected) language_options) as Hhead
    by (rewrite Hf; left).
  apply list_elem_of_filter in Hhead as [Hname Hin]. simpl in Hname. subst name.
  destruct Hmissing. apply list_elem_of_fmap. by exists (code, selected).
Qed.

(** X13.  For a selection that is no name of the table, the lookup of
    the language code raises IndexError: the stages end right after the
    select box, with the summary written, and ask for no translation and
    no speech. *)
Theorem main_stages_unknown_language E audio_path summary_length w :
  ui_selectbox E language_options.*2 ∉ language_options.*2 →
  (main_stages E audio_path summary_length w).1
  = Raised (Exn IndexError "list index out of range") ∧
  fs (main_stages E audio_path summary_length w).2 = fs w ∧
  ∃ evs summary,
    trace (main_stages E audio_path summary_length w).2
    = trace w ++ evs ++
      [ St_write (VStr "Summary:"); St_write summary;
        St_selectbox "Select language to translate the summary" language_options.*2 ] ∧
    Forall (λ ev, ∀ text code, ev ≠ Translate text code ∧ ev ≠ Gtts_new text code) evs.
Proof.
  intros Hcode%language_code_missing.
  destruct (transcribe_audio_returns E audio_path w)
    as (transcript & w1 & evs0 & Htranscribe & Hfs & Htrace & Hevs0).
  unfold main_stages. rewrite run_bind, Htranscribe. run.
  rewrite summarize_text_run. run. cbv zeta. rewrite Hcode. unfold first_item. run.
  split_and!; [done | done |].
  exists (evs0 ++ [ St_write (VStr "Summarizing text...");
                    Genai_generate "gemini-pro"
                      (create_prompt summary_length +:+ transcript) ]).
  eexists. split.
  - rewrite Htrace, <- !(assoc_L (++)). reflexivity.
  - apply Forall_app. split.
    + eapply Forall_impl; [exact Hevs0|]. intros ev [->| ->] ??; by split.
    + repeat (apply Forall_cons; split; [intros ??; by split|]). by apply Forall_nil.
Qed.

Lemma main_stages_unknown_language_witness :
  let E := Scenario.env (Some "bytes") "" "Klingon" ∅ true Scenario.never in
  (main_stages E "/tmp/tmpq7up.mp3" 250 (Sample.disk ["/tmp/tmpq7up.mp3"])).1
  = Raised (Exn IndexError "list index out of range").
Proof.
  intros E.
  refine (proj1 (main_stages_unknown_language E "/tmp/tmpq7up.mp3" 250
                   (Sample.disk ["/tmp/tmpq7up.mp3"]) _)).
  apply (bool_decide_unpack _). by vm_compute.
Defined.

(** ** The [try] statement as a whole *)

Global Instance keeps_files_preorder : PreOrder keeps_files.
Proof. unfold keeps_files. split; [by intros ? | intros ??? H1 H2; by etrans]. Qed.

(** [moves R] is closed under the monad's operations for every preorder
    [R]; what has to be shown for [R] are the primitive steps. *)
Section Preorder.
Context {R : relation state} `{!PreOrder R}.

Lemma steps_ret {A} (a : A) : moves R (mret a).
Proof. intros w. simpl. reflexivity. Qed.

Lemma steps_raise {A} e : moves R (@raise A e).
Proof. intros w. simpl. reflexivity. Qed.

Lemma steps_finish {A} (r : result A) : moves R (finish r).
Proof. intros w. simpl. reflexivity. Qed.

Lemma steps_bind {A B} (m : Py A) (f : A → Py B) :
  moves R m → (∀ a, moves R (f a)) → moves R (m ≫= f).
Proof.
  intros Hm Hf w. rewrite run_bind. specialize (Hm w).
  destruct (m w) as [[a|e] w1]; simpl in *; [|done].
  etrans; [apply Hm | apply Hf].
Qed.

Lemma steps_try_except {A} (body : Py A) cls handler :
  moves R body → (∀ e, moves R (handler e)) → moves R (try_except body cls handler).
Proof.
  intros Hm Hh w. unfold try_except. specialize (Hm w).
  destruct (body w) as [[a|e] w1]; simpl in *; [done|].
  destruct (issubclass _ _); [|done].
  etrans; [apply Hm | apply Hh].
Qed.

Lemma steps_os_path_exists path : moves R (os_path_exists path).
Proof. intros w. simpl. reflexivity. Qed.
End Preorder.

Lemma keeps_files_emit ev : moves keeps_files (emit ev).
Proof. intros w. unfold keeps_files. reflexivity. Qed.

Lemma keeps_files_call {A} ev (r : result A) : moves keeps_files (call ev r).
Proof. intros w. rewrite run_call. unfold keeps_files. reflexivity. Qed.

Lemma keeps_files_create_file path : moves keeps_files (create_file path).
Proof. intros w. unfold keeps_files. rewrite run_create_file. apply union_subseteq_r. Qed.

Lemma keeps_files_set_audio_path v : moves keeps_files (set_audio_path v).
Proof. intros w. unfold keeps_files. reflexivity. Qed.

Ltac keeps_files_step :=
  lazymatch goal with
  | |- moves _ (mbind _ _) => apply steps_bind; [|intros ?]
  | |- moves _ (mret _) => apply steps_ret
  | |- moves _ (raise _) => apply steps_raise
  | |- moves _ (finish _) => apply steps_finish
  | |- moves _ (try_except _ _ _) => apply steps_try_except; [|intros ?]
  | |- moves _ (emit _) => apply keeps_files_emit
  | |- moves _ (call _ _) => apply keeps_files_call
  | |- moves _ (st_write _) => apply keeps_files_emit
  | |- moves _ (create_file _) => apply keeps_files_create_file
  | |- moves _ (set_audio_path _) => apply keeps_files_set_audio_path
  | |- moves _ (os_path_exists _) => apply steps_os_path_exists
  | |- moves _ (str_add _ _ ?text) => destruct text; unfold str_add
  | |- moves _ (first_item ?xs) => destruct xs; unfold first_item
  | |- moves _ (if ?b then _ else _) => destruct b
  | |- moves _ (match ?x with _ => _ end) => destruct x
  | |- moves _ (let _ := _ in _) => cbv zeta
  end.

Section TryStatement.
Context (E : Env).

(** The body of the [try] with its handler removes no file. *)
Lemma main_process_keeps_files video_path summary_length :
  moves keeps_files
    (try_except (main_process E video_path summary_length) Exception
       (λ e, st_write ("An error occurred during processing: " +:+ exn_msg e))).
Proof.
  unfold main_process, main_stages, extract_audio, write_audiofile, transcribe_audio,
    transcription_request, open_read, summarize_text, translate_text, text_to_speech,
    named_temporary_file.
  repeat keeps_files_step.
Qed.

Lemma extract_audio_same_audio_path video_path :
  moves same_audio_path (extract_audio E video_path).
Proof. open_program. repeat moves_step; done. Qed.

(** From a state where [audio_path] is None, the body of the [try] with
    its handler leaves it None or the path for the video. *)
Lemma main_process_audio_path video_path summary_length w :
  audio_path_var w = None →
  let w' :=
    (try_except (main_process E video_path summary_length) Exception
       (λ e, st_write ("An error occurred during processing: " +:+ exn_msg e)) w).2 in
  audio_path_var w' = None ∨ audio_path_var w' = Some (temp_audio_path video_path).
Proof.
  intros Hnone. cbv zeta. rewrite run_try_except_Exception. unfold main_process.
  rewrite run_bind.
  pose proof (extract_audio_same_audio_path video_path w) as Hextract.
  destruct (extract_audio E video_path w) as [[audio_path|e] w1] eqn:Hrun;
    cbn [fst snd] in Hextract.
  - apply extract_audio_returned in Hrun as (-> & _ & _). run.
    rewrite temp_audio_path_truthy. right.
    match goal with |- context [ main_stages E ?ap ?n ?w0 ] =>
      pose proof (main_stages_same_audio_path E ap n w0) as Hstages;
      destruct (main_stages E ap n w0) as [[[]|e'] w2]
    end; cbn [fst snd] in *; run; exact Hstages.
  - run. left. unfold same_audio_path in Hextract. congruence.
Qed.

(** One deletion block removes nothing but its path. *)
Lemma guarded_remove_spares path label w p :
  p ∈ fs w → p ≠ path → p ∈ fs (guarded_remove E path label w).2.
Proof.
  intros Hp Hne. unfold guarded_remove. run.
  destruct (PyStr.truthy path); cbn [andb]; [|by run].
  destruct (decide (path ∈ fs w)) as [Hin|Hout];
    [|rewrite bool_decide_eq_false_2 by done; by run].
  rewrite bool_decide_eq_true_2, run_remove_guarded by done.
  destruct (remove_error E path) as [e|];
    [destruct (issubclass (exn_class e) PermissionError)|]; cbn [fst snd fs]; try done.
  apply elem_of_difference. split; [done|]. by intros ->%elem_of_singleton.
Qed.

Lemma guarded_remove_same_audio_path path label :
  moves same_audio_path (guarded_remove E path label).
Proof. unfold guarded_remove, os_remove. repeat moves_step; done. Qed.

Lemma main_cleanup_spares video_path w p :
  p ∈ fs w → p ≠ video_path → audio_path_var w ≠ Some p →
  p ∈ fs (main_cleanup E video_path w).2.
Proof.
  intros Hp Hvideo Haudio. rewrite main_cleanup_blocks, run_bind.
  pose proof (guarded_remove_spares video_path "Failed to delete video file: " w p Hp Hvideo)
    as Hp1.
  pose proof (guarded_remove_same_audio_path video_path "Failed to delete video file: " w)
    as Hvar1.
  destruct (guarded_remove E video_path _ w) as [[[]|e] w1]; cbn [fst snd] in *; [|done].
  run. unfold same_audio_path in Hvar1.
  destruct (audio_path_var w1) as [audio_path|] eqn:Hvar; [|by run].
  apply guarded_remove_spares; [done|]. intros ->. congruence.
Qed.
End TryStatement.

(** ** Deletions that raise *)

Section Reports.
Context (E : Env).



End Reports.




(** X14.  The [finally] block deletes nothing but the video file and the
    file that [audio_path] names: every other file on disk is still there
    afterwards, whether the deletions succeed, fail or raise. *)
Theorem main_cleanup_spares_other_files E video_path w path :
  path ∈ fs w →
  path ≠ video_path →
  audio_path_var w ≠ Some path →
  path ∈ fs (main_cleanup E video_path w).2.
Proof. apply main_cleanup_spares. Qed.

Lemma main_cleanup_spares_other_files_witness :
  let E := Scenario.env (Some "bytes") "" "English" ∅ true Scenario.never in
  let w := State (list_to_set ["/tmp/tmpq7up.mp4"; "/tmp/tmpq7up.mp3"; "/tmp/tmpq7sp.mp3"])
             [] (Some "/tmp/tmpq7up.mp3") in
  "/tmp/tmpq7sp.mp3" ∈ fs (main_cleanup E "/tmp/tmpq7up.mp4" w).2.
Proof.
  intros E w.
  refine (main_cleanup_spares_other_files E "/tmp/tmpq7up.mp4" w "/tmp/tmpq7sp.mp3" _ _ _).
  - apply (bool_decide_unpack _). by vm_compute.
  - discriminate.
  - discriminate.
Defined.

(** X15.  The [try] statement of [main], entered with [audio_path] None
    as [main] does, removes no file but the video file and the audio file
    for it: every other file that was on disk is still there when the
    statement is left, on every path through the stages and the
    cleanup. *)
Theorem main_guarded_spares_other_files E video_path summary_length w path :
  audio_path_var w = None →
  path ∈ fs w →
  path ≠ video_path →
  path ≠ temp_audio_path video_path →
  path ∈ fs (main_guarded E video_path summary_length w).2.
Proof.
  intros Hnone Hpath Hvideo Haudio. unfold main_guarded.
  pose proof (main_process_keeps_files E video_path summary_length w) as Hkeeps.
  pose proof (main_process_audio_path E video_path summary_length w Hnone) as Hvar.
  cbv zeta in Hvar. rewrite run_try_finally.
  match goal with |- context [ main_cleanup E video_path ?w0 ] =>
    pose proof (main_cleanup_spares E video_path w0 path) as Hspares;
    destruct (main_cleanup E video_path w0) as [[[]|e] w2]
  end; cbn [fst snd] in *; apply Hspares; try done;
    try (by apply Hkeeps); destruct Hvar as [Hvar|Hvar]; rewrite Hvar; congruence.
Qed.

Lemma main_guarded_spares_other_files_witness :
  let E := Scenario.env (Some "bytes") "" "English" ∅ true Scenario.never in
  let w := Sample.disk ["/tmp/tmpq7up.mp4"; "/home/u/notes.txt"] in
  "/home/u/notes.txt" ∈ fs (main_guarded E "/tmp/tmpq7up.mp4" 250 w).2.
Proof.
  intros E w.
  refine (main_guarded_spares_other_files E "/tmp/tmpq7up.mp4" 250 w
            "/home/u/notes.txt" eq_refl _ _ _).
  - apply (bool_decide_unpack _). by vm_compute.
  - discriminate.
  - by vm_compute.
Defined.

Global Instance creates_within_preorder allowed : PreOrder (creates_within allowed).
Proof.
  unfold creates_within. split.
  - intros w. apply union_subseteq_r.
  - intros w1 w2 w3 H12 H23 p Hp. apply H23 in Hp as [Hp|Hp]%elem_of_union.
    + apply elem_of_union. by left.
    + by apply H12.
Qed.

Section Creates.
Context (allowed : gset string).

Lemma creates_within_emit ev : moves (creates_within allowed) (emit ev).
Proof. intros w. rewrite run_emit. apply union_subseteq_r. Qed.

Lemma creates_within_call {A} ev (r : result A) : moves (creates_within allowed) (call ev r).
Proof. intros w. rewrite run_call. apply union_subseteq_r. Qed.

Lemma creates_within_create_file path :
  path ∈ allowed → moves (creates_within allowed) (create_file path).
Proof.
  intros Hin w. rewrite run_create_file. unfold creates_within. cbn [snd fs].
  intros p [->%elem_of_singleton|Hp]%elem_of_union; apply elem_of_union;
    [by left | by right].
Qed.

Lemma creates_within_delete_file path : moves (creates_within allowed) (delete_file path).
Proof.
  intros w. rewrite run_delete_file. unfold creates_within. cbn [snd fs].
  intros p [Hp _]%elem_of_difference. apply elem_of_union. by right.
Qed.

Lemma creates_within_set_audio_path v : moves (creates_within allowed) (set_audio_path v).
Proof. intros w. rewrite run_set_audio_path. apply union_subseteq_r. Qed.

Lemma creates_within_get_audio_path : moves (creates_within allowed) get_audio_path.
Proof. intros w. rewrite run_get_audio_path. apply union_subseteq_r. Qed.
End Creates.

Lemma steps_try_finally {R : relation state} `{!PreOrder R} {A} (body : Py A) final :
  moves R body → moves R final → moves R (try_finally body final).
Proof.
  intros Hm Hf w. rewrite run_try_finally. specialize (Hm w). specialize (Hf (body w).2).
  destruct (final _) as [[[]|e] w2]; simpl in *; by etrans.
Qed.

Ltac creates_within_step :=
  lazymatch goal with
  | |- moves _ (mbind _ _) => apply steps_bind; [|intros ?]
  | |- moves _ (mret _) => apply steps_ret
  | |- moves _ (raise _) => apply steps_raise
  | |- moves _ (finish _) => apply steps_finish
  | |- moves _ (try_except _ _ _) => apply steps_try_except; [|intros ?]
  | |- moves _ (try_finally _ _) => apply steps_try_finally
  | |- moves _ (emit _) => apply creates_within_emit
  | |- moves _ (call _ _) => apply creates_within_call
  | |- moves _ (st_write _) => apply creates_within_emit
  | |- moves _ (create_file _) => apply creates_within_create_file
  | |- moves _ (delete_file _) => apply creates_within_delete_file
  | |- moves _ (set_audio_path _) => apply creates_within_set_audio_path
  | |- moves _ get_audio_path => apply creates_within_get_audio_path
  | |- moves _ (os_path_exists _) => apply steps_os_path_exists
  | |- moves _ (str_add _ _ ?text) => destruct text; unfold str_add
  | |- moves _ (first_item ?xs) => destruct xs; unfold first_item
  | |- moves _ (if ?b then _ else _) => destruct b
  | |- moves _ (match ?x with _ => _ end) => destruct x
  | |- moves _ (let _ := _ in _) => cbv zeta
  end.

(** X16.  The [try] statement of [main] creates no file but the audio
    file for the video and the temporary speech file: whatever else is on
    disk when it is left was there when it was entered. *)
Theorem main_guarded_creates_two_files E video_path summary_length w path :
  path ∈ fs (main_guarded E video_path summary_length w).2 →
  path ∈ fs w ∨
  path = temp_audio_path video_path ∨
  path = tmp_speech_stem E +:+ ".mp3".
Proof.
  assert (moves (creates_within {[temp_audio_path video_path; tmp_speech_stem E +:+ ".mp3"]})
            (main_guarded E video_path summary_length)) as Hmoves.
  { open_program. repeat creates_within_step.
    - apply elem_of_union. left. by apply elem_of_singleton.
    - apply elem_of_union. right. by apply elem_of_singleton. }
  intros Hpath. apply Hmoves in Hpath.
  apply elem_of_union in Hpath as [[->%elem_of_singleton| ->%elem_of_singleton]%elem_of_union|Hp];
    auto.
Qed.

Lemma main_guarded_creates_two_files_witness :
  let E := Scenario.env (Some "bytes") "" "English" ∅ true
             (Scenario.only (Os_remove "/tmp/tmpq7up.mp3")
                (Exn PermissionError "[WinError 32] The process cannot access the file")) in
  let w := Sample.disk ["/tmp/tmpq7up.mp4"] in
  "/tmp/tmpq7up.mp3" ∈ fs (main_guarded E "/tmp/tmpq7up.mp4" 250 w).2 ∧
  ("/tmp/tmpq7up.mp3" ∈ fs w ∨
   "/tmp/tmpq7up.mp3" = temp_audio_path "/tmp/tmpq7up.mp4" ∨
   "/tmp/tmpq7up.mp3" = tmp_speech_stem E +:+ ".mp3").
Proof.
  intros E w.
  assert ("/tmp/tmpq7up.mp3" ∈ fs (main_guarded E "/tmp/tmpq7up.mp4" 250 w).2) as Hin
    by (apply (bool_decide_unpack _); by vm_compute).
  split; [exact Hin|].
  exact (main_guarded_creates_two_files E "/tmp/tmpq7up.mp4" 250 w "/tmp/tmpq7up.mp3" Hin).
Defined.

(** ** Which failures stop a run *)

Section Failures.
Context (E : Env).

Lemma main_cleanup_extends video_path :
  moves (extends cleanup_event) (main_cleanup E video_path).
Proof. open_program. repeat moves_step; done. Qed.

(** An exception of the [finally] block is the exception of a deletion
    that is no PermissionError. *)
Lemma main_cleanup_raises video_path w e :
  PyStr.truthy video_path = true →
  (main_cleanup E video_path w).1 = Raised e →
  ∃ path,
    remove_error E path = Some e ∧
    issubclass (exn_class e) PermissionError = false ∧
    Os_remove path ∈ trace (main_cleanup E video_path w).2.
Proof.
  intros Htruthy. rewrite main_cleanup_blocks, run_bind.
  pose proof (guarded_remove_leaves E video_path "Failed to delete video file: " w Htruthy)
    as (_ & _ & _ & Hout1).
  destruct (guarded_remove E video_path _ w) as [[[]|e1] w1]; cbn [fst snd] in *.
  - run. destruct (audio_path_var w1) as [audio_path|]; [|by run].
    destruct (PyStr.truthy audio_path) eqn:Haudio.
    + pose proof (guarded_remove_leaves E audio_path "Failed to delete audio file: " w1 Haudio)
        as (_ & _ & _ & Hout2).
      destruct (guarded_remove E audio_path _ w1) as [[[]|e2] w2]; cbn [fst snd] in *;
        [done|].
      intros [= ->]. by exists audio_path.
    + unfold guarded_remove. run. rewrite Haudio. cbn [andb]. by run.
  - intros [= ->]. by exists video_path.
Qed.

Lemma main_guarded_raises video_path summary_length w e :
  PyStr.truthy video_path = true →
  (main_guarded E video_path summary_length w).1 = Raised e →
  ∃ path,
    remove_error E path = Some e ∧
    issubclass (exn_class e) PermissionError = false ∧
    Os_remove path ∈ trace (main_guarded E video_path summary_length w).2.
Proof.
  intros Htruthy. unfold main_guarded. rewrite run_try_finally, main_process_handled.
  match goal with |- context [ main_cleanup E video_path ?w0 ] =>
    pose proof (main_cleanup_raises video_path w0 e Htruthy) as Hraises;
    destruct (main_cleanup E video_path w0) as [[[]|e'] w2]
  end; cbn [fst snd] in *; [done|].
  intros [= ->]. by apply Hraises.
Qed.

(** The acquisition raises only on the upload path: when a step of
    storing the upload raises, or showing the stored file does. *)
Lemma main_acquire_raises uploaded_file video_url w e :
  (main_acquire E uploaded_file video_url w).1 = Raised e →
  is_Some uploaded_file ∧
  ((∃ step, upload_failure E = Some (step, e)) ∨
   (upload_failure E = None ∧
    st_video_error E (tmp_upload_stem E +:+ ".mp4") = Some e)).
Proof.
  unfold main_acquire, named_temporary_file, st_video, upload_write_error, upload_error.
  destruct uploaded_file as [data|].
  - destruct (upload_failure E) as [[[] e']|]; simpl; run;
      try (intros [= ->]; split; [by eexists | left; by eexists]).
    destruct (st_video_error E _) as [e'|] eqn:Hvideo; run; [|done].
    intros [= ->]. split; [by eexists | by right].
  - destruct (PyStr.truthy video_url); [|by run].
    run. rewrite run_try_except_Exception, run_bind.
    match goal with |- context [ download_video E video_url ?w0 ] =>
      destruct (download_video E video_url w0) as [[path|e'] w1]
    end; [|by run].
    run. rewrite run_try_except_Exception. run.
    by destruct (st_video_error E path); run.
Qed.
End Failures.

(** X17.  When extracting the audio raises, [main] writes the processing
    error with the exception's message and goes to the cleanup: after
    that message the run only deletes and reports deletions, so no
    transcription, summary, translation or speech is asked for. *)
Theorem main_guarded_extract_fails E video_path summary_length w e w1 :
  extract_audio E video_path w = (Raised e, w1) →
  ∃ rest,
    trace (main_guarded E video_path summary_length w).2
    = trace w1
      ++ St_write (VStr ("An error occurred during processing: " +:+ exn_msg e)) :: rest ∧
    Forall cleanup_event rest.
Proof.
  intros Hextract. unfold main_guarded. rewrite run_try_finally.
  match goal with |- context [ main_cleanup E video_path ?w0 ] =>
    destruct (main_cleanup_extends E video_path w0) as (rest & Htrace & Hrest);
    assert (trace w0
            = trace w1 ++ [St_write (VStr ("An error occurred during processing: "
                                           +:+ exn_msg e))]) as Hbody
      by (rewrite run_try_except_Exception; unfold main_process;
          rewrite run_bind, Hextract; by run);
    rewrite Hbody in Htrace;
    destruct (main_cleanup E video_path w0) as [[[]|e'] w2]
  end; cbn [fst snd] in *; exists rest; (split; [|done]);
    by rewrite Htrace, <- (assoc_L (++)).
Qed.

Lemma main_guarded_extract_fails_witness :
  let e := Exn OSError "MoviePy error: failed to read the duration of file" in
  let E := Scenario.env (Some "bytes") "" "English" ∅ true
             (Scenario.only (Clip_open "/tmp/tmpq7up.mp4") e) in
  let w := Sample.disk ["/tmp/tmpq7up.mp4"] in
  ∃ rest,
    trace (main_guarded E "/tmp/tmpq7up.mp4" 250 w).2
    = trace (extract_audio E "/tmp/tmpq7up.mp4" w).2
      ++ St_write (VStr ("An error occurred during processing: " +:+ exn_msg e)) :: rest ∧
    Forall cleanup_event rest.
Proof.
  intros e E w.
  refine (main_guarded_extract_fails E "/tmp/tmpq7up.mp4" 250 w e
            (extract_audio E "/tmp/tmpq7up.mp4" w).2 _).
  vm_compute. reflexivity.
Defined.

(** X18.  With the widget calls [st.title], [st.slider],
    [st.file_uploader], [st.text_input], [st.selectbox], [st.write] and
    [st.audio] taken to return, [main] raises only on these lines, all of
    them outside a [try] that would handle the exception.  On the upload
    path: making the temporary file (line 129), opening it for writing
    (line 130), reading and writing the uploaded bytes (line 131),
    showing the stored video (line 132).  In the cleanup: a deletion that
    raises an exception that is no PermissionError (lines 190, 196).  No
    failure of the download, of showing the downloaded video, of the
    audio extraction, the transcription, the summary, the translation or
    the speech synthesis leaves [main] as an exception. *)
Theorem main_raises_only E w e :
  (main E w).1 = Raised e →
  (is_Some (ui_uploaded_file E) ∧
   ((∃ step, upload_failure E = Some (step, e)) ∨
    (upload_failure E = None ∧
     st_video_error E (tmp_upload_stem E +:+ ".mp4") = Some e))) ∨
  ∃ path,
    remove_error E path = Some e ∧
    issubclass (exn_class e) PermissionError = false ∧
    Os_remove path ∈ trace (main E w).2.
Proof.
  unfold main. cbv zeta. run.
  match goal with |- context [ main_acquire E ?up ?url ?w0 ] =>
    pose proof (main_acquire_raises E up url w0) as Hacquire;
    destruct (main_acquire E up url w0) as [[[path|]|e'] w1]
  end; cbn [fst snd] in *.
  - destruct (PyStr.truthy path) eqn:Htruthy; [|by run].
    intros Hraise. right. by apply main_guarded_raises.
  - by run.
  - intros [= ->]. left. by apply Hacquire.
Qed.

Lemma main_raises_only_witness :
  let e := Exn OSError "[Errno 5] Input/output error: '/tmp/tmpq7up.mp4'" in
  let E := Scenario.env (Some "bytes") "" "English" ∅ true
             (Scenario.only (Os_remove "/tmp/tmpq7up.mp4") e) in
  (main E (Sample.disk [])).1 = Raised e ∧
  ((is_Some (ui_uploaded_file E) ∧
    ((∃ step, upload_failure E = Some (step, e)) ∨
     (upload_failure E = None ∧
      st_video_error E (tmp_upload_stem E +:+ ".mp4") = Some e))) ∨
   ∃ path,
     remove_error E path = Some e ∧
     issubclass (exn_class e) PermissionError = false ∧
     Os_remove path ∈ trace (main E (Sample.disk [])).2).
Proof.
  intros e E.
  assert ((main E (Sample.disk [])).1 = Raised e) as Hraise by (by vm_compute).
  split; [exact Hraise|].
  exact (main_raises_only E (Sample.disk []) e Hraise).
Defined.
